(** * Returns calculator: the path optimizer [max_return] of src/main.py

    A shallow embedding of [max_return] (src/main.py, lines 75-128), of its
    caller [calculate_max_return], of the loader [load_data] and of [main].

    Modelling choices.
    - Numbers.  The first part runs the code over the exact rationals
      ([Q]); what is stated there about values is exact arithmetic, and is
      kept to properties that rounding does not change (signs, bounds,
      errors, control flow, small exact scenarios).  The last part has the
      same code with the arithmetic as a parameter ([Num]), instantiated
      with the rationals ([exact], the code of the first part) and with the
      primitive floats ([binary64], the arithmetic of the program); what
      depends on rounding is stated there.
    - Python ints are [Z].
    - The numpy array is a nested list; [getitem3] is numpy's indexing
      [arr[m, c, t]] with its bounds check and its wrap-around of negative
      indices.
    - [os.getenv] reads the process environment, which is an explicit
      argument [env] of [max_return].
    - The file system is an explicit argument of [load_data] and [main];
      what they print and log is returned as a list, each line named after
      the [print] call that writes it.
    - Exceptions are an outcome: [Return x], [Raise e], and [OutOfFuel] for
      the fuel-indexed recursion; [max_return] supplies enough fuel and is
      shown never to run out ([max_return_total]).  The interpreter's
      recursion limit is not modelled. *)

From Stdlib Require Import ZArith QArith Qminmax Qround Qabs List String Ascii Bool Lia Lqa.
From Stdlib Require Import Floats.
Import ListNotations.
Open Scope Z_scope.

(** ** Outcomes of a Python call *)

Inductive exn : Type :=
| IndexError   (* numpy: index out of bounds for an axis *)
| ValueError.  (* int(): invalid literal *)

Inductive outcome (A : Type) : Type :=
| Return (a : A)
| Raise (e : exn)
| OutOfFuel.

Arguments Return {A} a.
Arguments Raise {A} e.
Arguments OutOfFuel {A}.

Definition bind {A B : Type} (o : outcome A) (k : A -> outcome B) : outcome B :=
  match o with
  | Return a => k a
  | Raise e => Raise e
  | OutOfFuel => OutOfFuel
  end.

Notation "x <- o ;; k" := (bind o (fun x => k))
  (at level 61, o at next level, right associativity).

(** ** The process environment and [int(os.getenv(key, default))] *)

Definition environ : Type := list (string * string).

Fixpoint getenv (env : environ) (key default : string) : string :=
  match env with
  | [] => default
  | (k, v) :: rest => if String.eqb k key then v else getenv rest key default
  end.

(** Whitespace that [int] strips from an ASCII string: tab, LF, VT, FF, CR
    and space. *)
Definition is_space (a : ascii) : bool :=
  let n := nat_of_ascii a in
  ((9 <=? n) && (n <=? 13) || (n =? 32))%nat.

Definition digit_of (a : ascii) : option Z :=
  let n := nat_of_ascii a in
  if ((48 <=? n) && (n <=? 57))%nat then Some (Z.of_nat (n - 48)) else None.

Fixpoint lstrip (s : list ascii) : list ascii :=
  match s with
  | a :: rest => if is_space a then lstrip rest else s
  | [] => []
  end.

Definition strip (s : list ascii) : list ascii :=
  rev (lstrip (rev (lstrip s))).

(** Digits with single underscores allowed between two digits.
    [prev_digit] tells whether the previous character was a digit. *)
Fixpoint parse_digits (s : list ascii) (acc : Z) (prev_digit : bool) : option Z :=
  match s with
  | [] => if prev_digit then Some acc else None
  | a :: rest =>
      match digit_of a with
      | Some d => parse_digits rest (10 * acc + d) true
      | None =>
          if (Ascii.eqb a "_" && prev_digit)%bool
          then match rest with
               | b :: _ => match digit_of b with
                           | Some _ => parse_digits rest acc false
                           | None => None
                           end
               | [] => None
               end
          else None
      end
  end.

(** The number of digit characters of a literal. *)
Definition count_digits (s : list ascii) : nat :=
  List.length
    (filter (fun a => match digit_of a with Some _ => true | None => false end) s).

(** [int(s)] for a string of ASCII characters: a decimal literal gives its
    value, anything else a ValueError, and so does a literal of more than
    4300 digits (the default limit of Python 3.11 and later).  Strings with
    characters outside ASCII, where [int] also accepts the decimal digits
    and the white space of other scripts, are outside the model. *)
Definition py_int (s : string) : outcome Z :=
  let body := strip (list_ascii_of_string s) in
  let signed :=
    match body with
    | "-"%char :: rest => option_map Z.opp (parse_digits rest 0 false)
    | "+"%char :: rest => parse_digits rest 0 false
    | _ => parse_digits body 0 false
    end in
  match signed with
  | Some z => if (4300 <? count_digits body)%nat then Raise ValueError
              else Return z
  | None => Raise ValueError
  end.

(** Every character is ASCII and none is a decimal digit. *)
Definition ascii_without_digit (s : string) : bool :=
  forallb (fun a => (nat_of_ascii a <? 128)%nat &&
                    match digit_of a with Some _ => false | None => true end)
          (list_ascii_of_string s).

(** ** The rate tensor *)

Definition ndarray : Type := list (list (list Q)).

Definition len {A : Type} (l : list A) : Z := Z.of_nat (List.length l).

(** numpy's treatment of one index on an axis of size [n]: indices in
    [-n, n) are accepted, negative ones counted from the end. *)
Definition norm_index (i n : Z) : outcome nat :=
  if (- n <=? i) && (i <? n)
  then Return (Z.to_nat (if i <? 0 then i + n else i))
  else Raise IndexError.

(** [arr[m, c, t]] *)
Definition getitem3 (arr : ndarray) (m c t : Z) : outcome Q :=
  im <- norm_index m (len arr) ;;
  let mat := nth im arr [] in
  ic <- norm_index c (len mat) ;;
  let row := nth ic mat [] in
  it <- norm_index t (len row) ;;
  Return (nth it row 0%Q).

(** ** Python builtins used by the loop *)

(** [range(n)] *)
Definition py_range (n : Z) : list Z := map Z.of_nat (seq 0 (Z.to_nat n)).

(** [max(a, b)]: the first argument is kept unless the second is greater. *)
Definition py_max (a b : Q) : Q :=
  match b ?= a with
  | Gt => b
  | _ => a
  end.

(** [for x in xs: acc = body(x, acc)], stopping at the first exception. *)
Fixpoint for_loop {A S : Type} (xs : list A) (acc : S)
    (body : A -> S -> outcome S) : outcome S :=
  match xs with
  | [] => Return acc
  | x :: rest => acc' <- body x acc ;; for_loop rest acc' body
  end.

(** ** [max_return] *)

Definition TO_TRADE_CURRENCY : string := "TO_TRADE_CURRENCY".

(** The recursion of [max_return], indexed by the number of stack frames
    it may use. *)
Fixpoint max_return_fuel (fuel : nat) (env : environ)
    (month from_currency : Z) (portfolio_value : Q)
    (monthly_returns_arr : ndarray) (num_months num_currencies : Z)
    : outcome Q :=
  match fuel with
  | O => OutOfFuel
  | S fuel' =>
      if month =? num_months - 1 then
        to_trade_currency <- py_int (getenv env TO_TRADE_CURRENCY "0") ;;
        trade_return <-
          getitem3 monthly_returns_arr month from_currency to_trade_currency ;;
        let total_trade_return := (portfolio_value * trade_return)%Q in
        Return total_trade_return
      else
        for_loop (py_range num_currencies) 0%Q
          (fun to_trade_currency max_total_returns =>
             trade_return <-
               getitem3 monthly_returns_arr month from_currency
                 to_trade_currency ;;
             let total_trade_return := (portfolio_value * trade_return)%Q in
             next_return <-
               max_return_fuel fuel' env (month + 1) to_trade_currency
                 total_trade_return monthly_returns_arr num_months
                 num_currencies ;;
             Return (py_max max_total_returns next_return))
  end.

(** A recursive call is only made after [arr[month, ...]] was read, so
    [month] is below [len arr] in every frame but the last one: this many
    frames are enough for every input ([max_return_total]). *)
Definition frames (monthly_returns_arr : ndarray) (month : Z) : nat :=
  S (Z.to_nat (len monthly_returns_arr - month)).

Definition max_return (env : environ) (month from_currency : Z)
    (portfolio_value : Q) (monthly_returns_arr : ndarray)
    (num_months num_currencies : Z) : outcome Q :=
  max_return_fuel (frames monthly_returns_arr month) env month from_currency
    portfolio_value monthly_returns_arr num_months num_currencies.

(** ** Well-formed tensors *)

(** The array has shape [(d0, d1, d2)]. *)
Definition has_shape (arr : ndarray) (d0 d1 d2 : Z) : bool :=
  (len arr =? d0) &&
  forallb (fun mat => (len mat =? d1) &&
                      forallb (fun row => len row =? d2) mat) arr.

(** Every entry is non-negative. *)
Definition nonneg (arr : ndarray) : bool :=
  forallb (forallb (forallb (fun x => Qle_bool 0 x))) arr.

(** [rate[p][c][d]], read without a bounds check (0 outside the array). *)
Definition rate (arr : ndarray) (p c d : Z) : Q :=
  nth (Z.to_nat d) (nth (Z.to_nat c) (nth (Z.to_nat p) arr []) []) 0%Q.

(** The configured target currency is [t]:
    [int(os.getenv("TO_TRADE_CURRENCY", "0"))] evaluates to [t]. *)
Definition target_is (env : environ) (t : Z) : Prop :=
  py_int (getenv env TO_TRADE_CURRENCY "0") = Return t.

(** ** The search as a pure function

    What [max_return] computes on a well-formed call, by recursion on the
    number [k] of periods that follow period [p]. *)
Fixpoint search (arr : ndarray) (nc t : Z) (k : nat) (p c : Z) (v : Q) : Q :=
  match k with
  | O => v * rate arr p c t
  | S k' =>
      fold_left
        (fun acc d => py_max acc (search arr nc t k' (p + 1) d (v * rate arr p c d)))
        (py_range nc) 0
  end%Q.

(** ** Legal paths and their products (specification side) *)

(** The product of the rate factors along the destinations [ds], starting
    in currency [c] at period [p]. *)
Fixpoint path_product (arr : ndarray) (p c : Z) (ds : list Z) : Q :=
  match ds with
  | [] => 1
  | d :: ds' => rate arr p c d * path_product arr (p + 1) d ds'
  end%Q.

(** One destination per period from [month] to [nm - 1], each a currency,
    the last one the target. *)
Definition legal_path (nm nc t month : Z) (ds : list Z) : Prop :=
  len ds = nm - month /\
  (forall d, In d ds -> 0 <= d < nc) /\
  last ds t = t.

(** The same, by recursion on the number of periods after the first. *)
Fixpoint legal (nc t : Z) (k : nat) (ds : list Z) : Prop :=
  match k, ds with
  | O, [d] => d = t
  | S k', d :: ds' => 0 <= d < nc /\ legal nc t k' ds'
  | _, _ => False
  end.

(** [M] is the maximum of [f] over the paths satisfying [P]. *)
Definition is_max_over (P : list Z -> Prop) (f : list Z -> Q) (M : Q) : Prop :=
  (exists ds, P ds /\ f ds == M) /\ (forall ds, P ds -> f ds <= M)%Q.

(** ** The bottom-up dynamic program (specification side)

    [V[nm-1][c] = rate[nm-1][c][target]],
    [V[p][c] = max over d of rate[p][c][d] * V[p+1][d]] for [p < nm-1],
    answer [value * V[start_month][start_currency]]. *)

(** The maximum of a non-empty list. *)
Definition max_over (l : list Q) : Q :=
  match l with
  | [] => 0
  | x :: xs => fold_left Qmax xs x
  end.

(** The row of the last period. *)
Definition dp_last (arr : ndarray) (nm nc t : Z) : list Q :=
  map (fun c => rate arr (nm - 1) c t) (py_range nc).

(** The row of period [p] from the row [next] of period [p + 1]. *)
Definition dp_prev (arr : ndarray) (nc p : Z) (next : list Q) : list Q :=
  map (fun c =>
         max_over (map (fun d => rate arr p c d * nth (Z.to_nat d) next 0)%Q
                       (py_range nc)))
      (py_range nc).

(** The row of period [nm - 1 - k], computed from the last row upwards. *)
Fixpoint dp_table (arr : ndarray) (nm nc t : Z) (k : nat) : list Q :=
  match k with
  | O => dp_last arr nm nc t
  | S k' => dp_prev arr nc (nm - 1 - Z.of_nat k) (dp_table arr nm nc t k')
  end.

Definition dp_answer (arr : ndarray) (nm nc t : Z) (month c : Z) (v : Q) : Q :=
  (v * nth (Z.to_nat c) (dp_table arr nm nc t (Z.to_nat (nm - 1 - month))) 0)%Q.

(** The same values as a function of the period, for the proofs. *)
Fixpoint V (arr : ndarray) (nc t : Z) (k : nat) (p c : Z) : Q :=
  match k with
  | O => rate arr p c t
  | S k' =>
      max_over (map (fun d => rate arr p c d * V arr nc t k' (p + 1) d)%Q
                    (py_range nc))
  end.

(** ** The scenarios of the specification *)

(** 1 period, 2 currencies, rates [[1.0, 2.0], [0.5, 1.0]]. *)
Definition boundary_tensor : ndarray := [[[1; 2]; [1#2; 1]]]%Q.

(** 2 periods, 2 currencies, rates [[1,2],[1,1]] then [[1,1],[3,1]]. *)
Definition two_period_tensor : ndarray :=
  [[[1; 2]; [1; 1]]; [[1; 1]; [3; 1]]]%Q.

(** The environment with no variable set: every setting has its default,
    in particular the target currency is 0. *)
Definition default_env : environ := [].

(** ** [calculate_max_return]

    The array is the one [np.array] builds from the nested list, so the
    empty list has shape [(0,)] and no [shape[1]]. *)

(** [arr.shape[1]] *)
Definition shape1 (arr : ndarray) : outcome Z :=
  match arr with
  | [] => Raise IndexError
  | mat :: _ => Return (len mat)
  end.

Definition calculate_max_return (env : environ)
    (monthly_returns_arr : ndarray) : outcome Q :=
  let num_months := len monthly_returns_arr in
  num_currencies <- shape1 monthly_returns_arr ;;
  from_currency <- py_int (getenv env "FROM_CURRENCY" "0") ;;
  first_month <- py_int (getenv env "START_MONTH" "0") ;;
  let portfolio_value := 1%Q in
  max_return env first_month from_currency portfolio_value
    monthly_returns_arr num_months num_currencies.

(** ** [load_data]

    The file system is a map from paths to files.  A file is missing, or
    holds text that [json.loads] rejects, or holds a JSON document made of
    three levels of lists of numbers; other documents and other I/O
    failures are not represented, in particular documents with strings or
    with integers too large for int64, which the loader accepts too and
    on which the optimizer fails.  [np.array] is the one of numpy 1.24 and
    later, which rejects ragged nested lists. *)

Inductive file : Type :=
| Missing                      (* open: FileNotFoundError *)
| Undecodable                  (* json.loads: JSONDecodeError *)
| Document (data : ndarray).

Definition file_system : Type := string -> file.

(** What [load_data] raises. *)
Inductive load_exn : Type :=
| FileNotFoundError
| JSONDecodeError
| InhomogeneousShape           (* np.array: ValueError *)
| PlainException.              (* raise Exception *)

(** The lines the program prints, by the [print] call that writes them. *)
Inductive line : Type :=
| ShapeRequired                (* "Please provide 12 months of data ..." *)
| FileNotFound (input_filename : string)
                               (* "Error: File not found in the given
                                   location: ./data/<input_filename>" *)
| CheckContent                 (* "Error: Problem with reading the file; ..." *)
| UnexpectedProblem            (* "Error: Unexpected problem while loading
                                   the data; ..." *)
| ProvideFileName              (* "Error: Could not calculate the maximum
                                   returns. Please provide ..." *)
| Usage                        (* "Usage of application: python main.py
                                   filename" *)
| MaximumReturn (max_profit_possible : Q)
                               (* "Maximum possible return over the year:
                                   <max_profit_possible>%" *)
| TryAgain.                    (* "Could not calculate the maximum returns.
                                   Please try again ..." *)

(** The nested list is rectangular: [np.array] accepts it. *)
Definition is_rectangular (data : ndarray) : bool :=
  has_shape data (len data) (len (hd [] data)) (len (hd [] (hd [] data))).

(** The printed lines and the result: an exception or the array. *)
Definition load_data (env : environ) (fs : file_system)
    (input_filename : string) : list line * (load_exn + ndarray) :=
  let data_folder := getenv env "DATA_FOLDER" "./data/" in
  match fs (data_folder ++ input_filename)%string with
  | Missing => ([FileNotFound input_filename], inl FileNotFoundError)
  | Undecodable => ([CheckContent], inl JSONDecodeError)
  | Document data =>
      if negb (is_rectangular data) then
        ([UnexpectedProblem], inl InhomogeneousShape)
      else if negb (has_shape data 12 4 4) then
        ([ShapeRequired; UnexpectedProblem], inl PlainException)
      else ([], inr data)
  end.

(** ** [main] *)

(** [round(x, 2)] in exact arithmetic: to the nearest hundredth, ties to
    the even one.  The program rounds the binary64 value of
    [(x - 1.00) * 100], which can lie on the other side of a tie. *)
Definition round_half_even (q : Q) : Z :=
  let f := Qfloor q in
  match (q - inject_Z f ?= 1 # 2)%Q with
  | Lt => f
  | Gt => f + 1
  | Eq => if Z.even f then f else f + 1
  end.

Definition py_round2 (x : Q) : Q :=
  (inject_Z (round_half_even (x * 100)) / 100)%Q.

(** The exception [main] caught. *)
Inductive caught : Type :=
| FromLoader (e : load_exn)
| FromOptimizer (e : exn).

(** The records sent to the logger. *)
Inductive record : Type :=
| Info (message : string)
| InfoMaximumReturn (max_profit_possible : Q)
| LoggedException (e : caught).

(** How the call ends: it returns, or [sys.exit(status)]. *)
Inductive ending : Type :=
| Returned
| SystemExit (status : Z).

Record run : Type := {
  printed : list line;
  logged : list record;
  ended : ending
}.

(** [None] only if the optimizer ran out of fuel, which it never does
    ([main_total]). *)
Definition main (env : environ) (fs : file_system)
    (input_args : list string) : option run :=
  match input_args with
  | [] =>
      Some {| printed := [ProvideFileName; Usage];
              logged := [];
              ended := SystemExit 1 |}
  | input_filename :: _ =>
      let log1 := [Info ("Loading data from file: " ++ input_filename)%string] in
      match load_data env fs input_filename with
      | (out, inl e) =>
          Some {| printed := out ++ [TryAgain];
                  logged := log1 ++ [LoggedException (FromLoader e)];
                  ended := SystemExit 1 |}
      | (out, inr monthly_returns_matrix) =>
          let log2 :=
            log1 ++ [Info "Data loaded successfully";
                     Info "Calculating the maximum return over the year ..."]
          in
          match calculate_max_return env monthly_returns_matrix with
          | Return max_return_possible =>
              let max_profit_possible :=
                py_round2 ((max_return_possible - 1) * 100)%Q in
              Some {| printed := out ++ [MaximumReturn max_profit_possible];
                      logged := log2 ++ [InfoMaximumReturn max_profit_possible];
                      ended := Returned |}
          | Raise e =>
              Some {| printed := out ++ [TryAgain];
                      logged := log2 ++ [LoggedException (FromOptimizer e)];
                      ended := SystemExit 1 |}
          | OutOfFuel => None
          end
      end
  end.

(** For the examples: a year of 12 identical months over 4 currencies,
    stored where the default DATA_FOLDER looks for it. *)
Definition year_tensor : ndarray :=
  repeat [[1; 2; 1; 1]; [1; 1; 1; 1]; [1; 1; 1; 1]; [1; 1; 1; 1]]%Q 12.

Definition year_fs : file_system :=
  fun path => if String.eqb path "./data/currency_data.txt"
              then Document year_tensor else Missing.

(** ** The same code over an arithmetic

    [max_return] multiplies numbers and compares them.  The definitions of
    this module are the ones above with the number type, its 0, its 1.0,
    its product and its [>] as parameters: instantiated with the rationals
    they are the definitions above ([exact_max_return]), instantiated with
    the primitive floats they are the code as Python runs it, on binary64
    with every product rounded to nearest-even. *)

Record arith : Type := {
  num : Type;
  num_0 : num;                        (* the 0 of max_total_returns = 0 *)
  num_1 : num;                        (* the 1.0 of portfolio_value = 1.0 *)
  times : num -> num -> num;          (* a * b *)
  greater : num -> num -> bool        (* a > b *)
}.

Module Num.
Section Over.
Variable A : arith.

Definition ndarray : Type := list (list (list (num A))).

(** [arr[m, c, t]] *)
Definition getitem3 (arr : ndarray) (m c t : Z) : outcome (num A) :=
  im <- norm_index m (len arr) ;;
  let mat := nth im arr [] in
  ic <- norm_index c (len mat) ;;
  let row := nth ic mat [] in
  it <- norm_index t (len row) ;;
  Return (nth it row (num_0 A)).

(** [max(a, b)] *)
Definition py_max (a b : num A) : num A :=
  if greater A b a then b else a.

Fixpoint max_return_fuel (fuel : nat) (env : environ)
    (month from_currency : Z) (portfolio_value : num A)
    (monthly_returns_arr : ndarray) (num_months num_currencies : Z)
    : outcome (num A) :=
  match fuel with
  | O => OutOfFuel
  | S fuel' =>
      if month =? num_months - 1 then
        to_trade_currency <- py_int (getenv env TO_TRADE_CURRENCY "0") ;;
        trade_return <-
          getitem3 monthly_returns_arr month from_currency to_trade_currency ;;
        let total_trade_return := times A portfolio_value trade_return in
        Return total_trade_return
      else
        for_loop (py_range num_currencies) (num_0 A)
          (fun to_trade_currency max_total_returns =>
             trade_return <-
               getitem3 monthly_returns_arr month from_currency
                 to_trade_currency ;;
             let total_trade_return := times A portfolio_value trade_return in
             next_return <-
               max_return_fuel fuel' env (month + 1) to_trade_currency
                 total_trade_return monthly_returns_arr num_months
                 num_currencies ;;
             Return (py_max max_total_returns next_return))
  end.

Definition frames (monthly_returns_arr : ndarray) (month : Z) : nat :=
  S (Z.to_nat (len monthly_returns_arr - month)).

Definition max_return (env : environ) (month from_currency : Z)
    (portfolio_value : num A) (monthly_returns_arr : ndarray)
    (num_months num_currencies : Z) : outcome (num A) :=
  max_return_fuel (frames monthly_returns_arr month) env month from_currency
    portfolio_value monthly_returns_arr num_months num_currencies.

(** [arr.shape[1]] *)
Definition shape1 (arr : ndarray) : outcome Z :=
  match arr with
  | [] => Raise IndexError
  | mat :: _ => Return (len mat)
  end.

Definition calculate_max_return (env : environ)
    (monthly_returns_arr : ndarray) : outcome (num A) :=
  let num_months := len monthly_returns_arr in
  num_currencies <- shape1 monthly_returns_arr ;;
  from_currency <- py_int (getenv env "FROM_CURRENCY" "0") ;;
  first_month <- py_int (getenv env "START_MONTH" "0") ;;
  let portfolio_value := num_1 A in
  max_return env first_month from_currency portfolio_value
    monthly_returns_arr num_months num_currencies.

(** The array has shape [(d0, d1, d2)]. *)
Definition has_shape (arr : ndarray) (d0 d1 d2 : Z) : bool :=
  (len arr =? d0) &&
  forallb (fun mat => (len mat =? d1) &&
                      forallb (fun row => len row =? d2) mat) arr.

(** [rate[p][c][d]], read without a bounds check. *)
Definition rate (arr : ndarray) (p c d : Z) : num A :=
  nth (Z.to_nat d) (nth (Z.to_nat c) (nth (Z.to_nat p) arr []) []) (num_0 A).

(** What [max_return] computes on a well-formed call, by recursion on the
    number [k] of periods that follow period [p]. *)
Fixpoint search (arr : ndarray) (nc t : Z) (k : nat) (p c : Z) (v : num A)
    : num A :=
  match k with
  | O => times A v (rate arr p c t)
  | S k' =>
      fold_left
        (fun acc d =>
           py_max acc (search arr nc t k' (p + 1) d (times A v (rate arr p c d))))
        (py_range nc) (num_0 A)
  end.


(** The bottom-up dynamic program of the specification:
    [V[nm-1][c] = rate[nm-1][c][target]],
    [V[p][c] = max over d of rate[p][c][d] * V[p+1][d]],
    answer [value * V[start_month][start_currency]]. *)
Definition max_over (l : list (num A)) : num A :=
  match l with
  | [] => num_0 A
  | x :: xs => fold_left py_max xs x
  end.

Definition dp_last (arr : ndarray) (nm nc t : Z) : list (num A) :=
  map (fun c => rate arr (nm - 1) c t) (py_range nc).

Definition dp_prev (arr : ndarray) (nc p : Z) (next : list (num A))
    : list (num A) :=
  map (fun c =>
         max_over
           (map (fun d => times A (rate arr p c d)
                            (nth (Z.to_nat d) next (num_0 A)))
                (py_range nc)))
      (py_range nc).

Fixpoint dp_table (arr : ndarray) (nm nc t : Z) (k : nat) : list (num A) :=
  match k with
  | O => dp_last arr nm nc t
  | S k' => dp_prev arr nc (nm - 1 - Z.of_nat k) (dp_table arr nm nc t k')
  end.

Definition dp_answer (arr : ndarray) (nm nc t : Z) (month c : Z) (v : num A)
    : num A :=
  times A v
    (nth (Z.to_nat c) (dp_table arr nm nc t (Z.to_nat (nm - 1 - month)))
       (num_0 A)).

End Over.
End Num.

(** Exact arithmetic: the rationals. *)
Definition exact : arith := {|
  num := Q;
  num_0 := 0%Q;
  num_1 := 1%Q;
  times := Qmult;
  greater := fun a b => match (a ?= b)%Q with Gt => true | _ => false end
|}.







(** Every entry fits a 64-bit signed integer in magnitude, so that
    [np.array] stores the document as int64 or float64. *)
Definition within_int64 (arr : ndarray) : bool :=
  forallb (forallb (forallb
    (fun x => Qle_bool (Qabs x) (inject_Z 9223372036854775807)))) arr.

(** ** Basic facts: outcomes, indexing, loops *)

Example py_int_literals :
  py_int "0" = Return 0 /\ py_int " +1_0 " = Return 10 /\
  py_int "-007" = Return (-7) /\ py_int "" = Raise ValueError /\
  py_int "1__0" = Raise ValueError /\ py_int "_1" = Raise ValueError /\
  py_int "1_" = Raise ValueError /\ py_int "GBP" = Raise ValueError.
Proof. repeat split; reflexivity. Qed.

Example getitem3_indexing :
  getitem3 boundary_tensor 0 1 0 = Return (1 # 2)%Q /\
  getitem3 boundary_tensor (-1) (-1) (-2) = Return (1 # 2)%Q /\
  getitem3 boundary_tensor 1 0 0 = Raise IndexError /\
  getitem3 boundary_tensor 0 0 (-3) = Raise IndexError.
Proof. repeat split; reflexivity. Qed.

Lemma py_int_fuel (s : string) : py_int s <> OutOfFuel.
Proof.
  unfold py_int.
  destruct (match strip (list_ascii_of_string s) with
            | [] => _ | _ :: _ => _ end); [ | discriminate ].
  destruct (4300 <? _)%nat; discriminate.
Qed.

Lemma norm_index_fuel (i n : Z) : norm_index i n <> OutOfFuel.
Proof. unfold norm_index. destruct (_ && _); discriminate. Qed.

Lemma norm_index_in_range (i n : Z) :
  0 <= i < n -> norm_index i n = Return (Z.to_nat i).
Proof.
  intros H. unfold norm_index.
  replace (- n <=? i) with true by (symmetry; apply Z.leb_le; lia).
  replace (i <? n) with true by (symmetry; apply Z.ltb_lt; lia).
  replace (i <? 0) with false by (symmetry; apply Z.ltb_ge; lia).
  reflexivity.
Qed.

Lemma norm_index_above (i n : Z) : n <= i -> norm_index i n = Raise IndexError.
Proof.
  intros H. unfold norm_index.
  replace (i <? n) with false by (symmetry; apply Z.ltb_ge; lia).
  now rewrite andb_false_r.
Qed.

Lemma norm_index_Return (i n : Z) (k : nat) :
  norm_index i n = Return k -> - n <= i < n.
Proof.
  unfold norm_index.
  destruct (- n <=? i) eqn:E1; destruct (i <? n) eqn:E2; simpl; try discriminate.
  intros _. apply Z.leb_le in E1. apply Z.ltb_lt in E2. lia.
Qed.

Lemma getitem3_fuel (arr : ndarray) (m c t : Z) : getitem3 arr m c t <> OutOfFuel.
Proof.
  unfold getitem3.
  destruct (norm_index m (len arr)) as [im| |] eqn:Em; simpl;
    [ | discriminate | now apply norm_index_fuel in Em ].
  destruct (norm_index c _) as [ic| |] eqn:Ec; simpl;
    [ | discriminate | now apply norm_index_fuel in Ec ].
  destruct (norm_index t _) as [it| |] eqn:Et; simpl;
    [ discriminate | discriminate | now apply norm_index_fuel in Et ].
Qed.

(** A successful read means the month is a valid index of the first axis. *)
Lemma getitem3_Return_month (arr : ndarray) (m c t : Z) (r : Q) :
  getitem3 arr m c t = Return r -> - len arr <= m < len arr.
Proof.
  unfold getitem3.
  destruct (norm_index m (len arr)) as [im| |] eqn:Em; simpl; try discriminate.
  intros _. now apply norm_index_Return in Em.
Qed.

Lemma getitem3_month_above (arr : ndarray) (m c t : Z) :
  len arr <= m -> getitem3 arr m c t = Raise IndexError.
Proof.
  intros H. unfold getitem3. now rewrite norm_index_above.
Qed.

Lemma has_shape_len (arr : ndarray) (d0 d1 d2 : Z) :
  has_shape arr d0 d1 d2 = true -> len arr = d0.
Proof.
  unfold has_shape. intros H. apply andb_prop in H. now apply Z.eqb_eq.
Qed.

Lemma has_shape_getitem3 (arr : ndarray) (d0 d1 d2 m c t : Z) :
  has_shape arr d0 d1 d2 = true ->
  0 <= m < d0 -> 0 <= c < d1 -> 0 <= t < d2 ->
  getitem3 arr m c t = Return (rate arr m c t).
Proof.
  unfold has_shape. intros H Hm Hc Ht.
  apply andb_prop in H. destruct H as [H0 H].
  apply Z.eqb_eq in H0. rewrite forallb_forall in H.
  unfold getitem3, rate.
  rewrite norm_index_in_range by lia. simpl.
  assert (Hin : In (nth (Z.to_nat m) arr []) arr)
    by (apply nth_In; unfold len in H0; lia).
  apply H in Hin. apply andb_prop in Hin. destruct Hin as [H1 Hrows].
  apply Z.eqb_eq in H1. rewrite forallb_forall in Hrows.
  rewrite norm_index_in_range by lia. simpl.
  assert (Hin : In (nth (Z.to_nat c) (nth (Z.to_nat m) arr []) [])
                   (nth (Z.to_nat m) arr []))
    by (apply nth_In; unfold len in H1; lia).
  apply Hrows in Hin. apply Z.eqb_eq in Hin.
  rewrite norm_index_in_range by lia. reflexivity.
Qed.

Lemma nth_nonneg (row : list Q) (i : nat) :
  forallb (fun x => Qle_bool 0 x) row = true -> (0 <= nth i row 0)%Q.
Proof.
  intros H. destruct (Nat.lt_ge_cases i (List.length row)) as [Hi|Hi].
  - rewrite forallb_forall in H. apply Qle_bool_iff, H, nth_In, Hi.
  - rewrite nth_overflow by exact Hi. apply Qle_refl.
Qed.

Lemma rate_nonneg (arr : ndarray) (p c d : Z) :
  nonneg arr = true -> (0 <= rate arr p c d)%Q.
Proof.
  unfold nonneg, rate. intros H. apply nth_nonneg.
  destruct (Nat.lt_ge_cases (Z.to_nat c)
              (List.length (nth (Z.to_nat p) arr []))) as [Hc|Hc];
    [ | now rewrite (nth_overflow _ _ Hc) ].
  destruct (Nat.lt_ge_cases (Z.to_nat p) (List.length arr)) as [Hp|Hp];
    [ | rewrite (nth_overflow _ _ Hp) in Hc; simpl in Hc; lia ].
  rewrite forallb_forall in H.
  specialize (H _ (nth_In arr [] Hp)). rewrite forallb_forall in H.
  apply H, nth_In, Hc.
Qed.

Lemma py_range_In (n d : Z) : In d (py_range n) <-> 0 <= d < n.
Proof.
  unfold py_range. rewrite in_map_iff. split.
  - intros (k & <- & Hk). apply in_seq in Hk. lia.
  - intros H. exists (Z.to_nat d). split; [lia | apply in_seq; lia].
Qed.

Lemma py_range_cons (n : Z) :
  1 <= n -> exists rest, py_range n = 0 :: rest.
Proof.
  intros H. unfold py_range.
  destruct (Z.to_nat n) as [|k] eqn:E; [lia|].
  simpl. eexists. reflexivity.
Qed.

(** Two loop bodies that agree wherever the first one does not run out of
    fuel give the same loop. *)
Lemma for_loop_fuel_mono {A S : Type} (xs : list A)
    (body1 body2 : A -> S -> outcome S) :
  (forall x acc, In x xs -> body1 x acc <> OutOfFuel ->
                 body2 x acc = body1 x acc) ->
  forall acc, for_loop xs acc body1 <> OutOfFuel ->
              for_loop xs acc body2 = for_loop xs acc body1.
Proof.
  induction xs as [|x xs IH]; intros Hb acc; simpl; [reflexivity|].
  intros Hne.
  assert (H1 : body1 x acc <> OutOfFuel)
    by (intros E; apply Hne; now rewrite E).
  rewrite (Hb x acc (or_introl eq_refl) H1).
  destruct (body1 x acc) as [a| |]; simpl in *; try reflexivity.
  apply IH; [ | exact Hne ].
  intros y acc' Hy. apply Hb. now right.
Qed.

Lemma for_loop_fuel {A S : Type} (xs : list A) (body : A -> S -> outcome S) :
  (forall x acc, In x xs -> body x acc <> OutOfFuel) ->
  forall acc, for_loop xs acc body <> OutOfFuel.
Proof.
  induction xs as [|x xs IH]; intros Hb acc; simpl; [discriminate|].
  pose proof (Hb x acc (or_introl eq_refl)) as H1.
  destruct (body x acc) as [a| |]; simpl; [ | discriminate | congruence ].
  apply IH. intros y acc' Hy. apply Hb. now right.
Qed.

(** A loop whose body always returns is a left fold. *)
Lemma for_loop_pure {A S : Type} (xs : list A) (body : A -> S -> outcome S)
    (f : S -> A -> S) :
  (forall x acc, In x xs -> body x acc = Return (f acc x)) ->
  forall acc, for_loop xs acc body = Return (fold_left f xs acc).
Proof.
  induction xs as [|x xs IH]; intros Hb acc; simpl; [reflexivity|].
  rewrite (Hb x acc (or_introl eq_refl)). simpl.
  apply IH. intros y acc' Hy. apply Hb. now right.
Qed.

(** ** Fuel: enough frames always exist *)

Lemma max_return_fuel_total (fuel : nat) :
  forall env month c v arr nm nc,
    (Z.to_nat (len arr - month) < fuel)%nat ->
    max_return_fuel fuel env month c v arr nm nc <> OutOfFuel.
Proof.
  induction fuel as [|fuel IH]; intros env month c v arr nm nc Hf; [lia|].
  simpl. destruct (month =? nm - 1).
  - destruct (py_int _) as [t| |] eqn:Et; simpl;
      [ | discriminate | now apply py_int_fuel in Et ].
    destruct (getitem3 arr month c t) as [r| |] eqn:Er; simpl;
      [ discriminate | discriminate | now apply getitem3_fuel in Er ].
  - apply for_loop_fuel. intros d acc _.
    destruct (getitem3 arr month c d) as [r| |] eqn:Er; simpl;
      [ | discriminate | now apply getitem3_fuel in Er ].
    apply getitem3_Return_month in Er.
    specialize (IH env (month + 1) d (v * r)%Q arr nm nc).
    destruct (max_return_fuel fuel env (month + 1) d (v * r)%Q arr nm nc);
      simpl; [ discriminate | discriminate | ].
    apply IH. lia.
Qed.

Lemma max_return_fuel_mono (fuel : nat) :
  forall env month c v arr nm nc,
    max_return_fuel fuel env month c v arr nm nc <> OutOfFuel ->
    forall fuel', (fuel <= fuel')%nat ->
      max_return_fuel fuel' env month c v arr nm nc =
      max_return_fuel fuel env month c v arr nm nc.
Proof.
  induction fuel as [|fuel IH]; intros env month c v arr nm nc Hne fuel' Hle;
    [ now elim Hne | ].
  destruct fuel' as [|fuel']; [lia|].
  simpl in *. destruct (month =? nm - 1); [reflexivity|].
  apply for_loop_fuel_mono; [ | exact Hne ].
  intros d acc _. destruct (getitem3 arr month c d) as [r| |]; simpl;
    try reflexivity.
  intros Hb. rewrite (IH env (month + 1) d (v * r)%Q arr nm nc); [reflexivity| |lia].
  intros E. apply Hb. now rewrite E.
Qed.

(** [max_return] never runs out of frames, whatever its arguments. *)
Lemma max_return_total env month c v arr nm nc :
  max_return env month c v arr nm nc <> OutOfFuel.
Proof. apply max_return_fuel_total. unfold frames. lia. Qed.

(** Any number of frames that suffices gives the result of [max_return]. *)
Lemma max_return_fuel_enough fuel env month c v arr nm nc :
  max_return_fuel fuel env month c v arr nm nc <> OutOfFuel ->
  max_return env month c v arr nm nc =
  max_return_fuel fuel env month c v arr nm nc.
Proof.
  intros Hne. unfold max_return.
  destruct (Nat.le_ge_cases fuel (frames arr month)) as [Hle|Hle].
  - now apply max_return_fuel_mono.
  - symmetry. apply max_return_fuel_mono; [ | exact Hle ].
    apply max_return_total.
Qed.

(** ** Arithmetic of [py_max] and [max_over] *)

Lemma py_max_spec (a b : Q) :
  (a < b /\ py_max a b = b)%Q \/ (b <= a /\ py_max a b = a)%Q.
Proof.
  unfold py_max. destruct (b ?= a)%Q eqn:E.
  - right. split; [ | reflexivity ]. apply Qeq_alt in E. rewrite E. apply Qle_refl.
  - right. split; [ | reflexivity ]. apply Qlt_alt in E. now apply Qlt_le_weak.
  - left. split; [ | reflexivity ]. now apply Qgt_alt in E.
Qed.

Lemma Qmult_le_nonneg_l (a b c : Q) :
  (0 <= a -> b <= c -> a * b <= a * c)%Q.
Proof. intros Ha Hbc. nra. Qed.

Section FoldMax.
Variable f : Z -> Q.
Let step := fun (acc : Q) (d : Z) => py_max acc (f d).

Lemma fold_py_max_acc (xs : list Z) :
  forall acc, (acc <= fold_left step xs acc)%Q.
Proof.
  induction xs as [|x xs IH]; intros acc; simpl; [apply Qle_refl|].
  eapply Qle_trans; [ | apply IH ].
  unfold step. destruct (py_max_spec acc (f x)) as [[H ->]|[H ->]].
  - now apply Qlt_le_weak.
  - apply Qle_refl.
Qed.

Lemma fold_py_max_ge (xs : list Z) :
  forall acc d, In d xs -> (f d <= fold_left step xs acc)%Q.
Proof.
  induction xs as [|x xs IH]; intros acc d Hin; simpl; [contradiction|].
  destruct Hin as [->|Hin]; [ | now apply IH ].
  eapply Qle_trans; [ | apply fold_py_max_acc ].
  unfold step. destruct (py_max_spec acc (f d)) as [[H ->]|[H ->]].
  - apply Qle_refl.
  - exact H.
Qed.

Lemma fold_py_max_attained (xs : list Z) :
  forall acc, fold_left step xs acc = acc \/
              exists d, In d xs /\ fold_left step xs acc = f d.
Proof.
  induction xs as [|x xs IH]; intros acc; simpl; [now left|].
  destruct (IH (step acc x)) as [E|(d & Hd & E)].
  - rewrite E. unfold step.
    destruct (py_max_spec acc (f x)) as [[H ->]|[H ->]].
    + right. exists x. split; [now left | reflexivity].
    + now left.
  - right. exists d. split; [now right | exact E].
Qed.
End FoldMax.

Lemma fold_Qmax_acc (xs : list Q) :
  forall acc, (acc <= fold_left Qmax xs acc)%Q.
Proof.
  induction xs as [|x xs IH]; intros acc; simpl; [apply Qle_refl|].
  eapply Qle_trans; [ apply (Q.le_max_l acc x) | apply IH ].
Qed.

Lemma fold_Qmax_ge (xs : list Q) :
  forall acc x, In x xs -> (x <= fold_left Qmax xs acc)%Q.
Proof.
  induction xs as [|y xs IH]; intros acc x Hin; simpl; [contradiction|].
  destruct Hin as [->|Hin]; [ | now apply IH ].
  eapply Qle_trans; [ apply (Q.le_max_r acc x) | apply fold_Qmax_acc ].
Qed.

Lemma fold_Qmax_attained (xs : list Q) :
  forall acc, fold_left Qmax xs acc == acc \/
              exists x, In x xs /\ fold_left Qmax xs acc == x.
Proof.
  induction xs as [|y xs IH]; intros acc; simpl; [left; reflexivity|].
  destruct (IH (Qmax acc y)) as [E|(x & Hx & E)].
  - destruct (Q.max_spec acc y) as [[_ H]|[_ H]];
      pose proof (Qeq_trans _ _ _ E H) as E'.
    + right. exists y. split; [now left | exact E'].
    + now left.
  - right. exists x. split; [now right | exact E].
Qed.

Lemma max_over_ge (l : list Q) (x : Q) : In x l -> (x <= max_over l)%Q.
Proof.
  destruct l as [|y l]; simpl; [contradiction|].
  intros [->|Hin]; [apply fold_Qmax_acc | now apply fold_Qmax_ge].
Qed.

Lemma max_over_attained (l : list Q) :
  l <> [] -> exists x, In x l /\ max_over l == x.
Proof.
  destruct l as [|y l]; [congruence|]. intros _. simpl.
  destruct (fold_Qmax_attained l y) as [E|(x & Hx & E)].
  - exists y. split; [now left | exact E].
  - exists x. split; [now right | exact E].
Qed.

(** ** Well-formed calls

    A tensor of shape [(nm, nc, nc)] and a target currency [t] inside it. *)

Section WellFormed.
Variables (env : environ) (arr : ndarray) (nm nc t : Z).
Hypothesis Hshape : has_shape arr nm nc nc = true.
Hypothesis Htarget : target_is env t.
Hypothesis Ht : 0 <= t < nc.

(** On a well-formed call [max_return] returns what [search] computes,
    with [nm - 1 - month] nested recursive calls. *)
Lemma max_return_fuel_search (k : nat) :
  forall fuel month c v,
    month = nm - 1 - Z.of_nat k -> 0 <= month -> 0 <= c < nc ->
    (k < fuel)%nat ->
    max_return_fuel fuel env month c v arr nm nc
    = Return (search arr nc t k month c v).
Proof.
  induction k as [|k IH]; intros fuel month c v Hm H0 Hc Hf;
    (destruct fuel as [|fuel]; [lia|]); simpl max_return_fuel.
  - replace (month =? nm - 1) with true by (symmetry; apply Z.eqb_eq; lia).
    red in Htarget. rewrite Htarget. simpl.
    rewrite (has_shape_getitem3 arr nm nc nc) by (auto; lia).
    reflexivity.
  - replace (month =? nm - 1) with false by (symmetry; apply Z.eqb_neq; lia).
    simpl search. apply for_loop_pure. intros d acc Hd.
    apply py_range_In in Hd.
    rewrite (has_shape_getitem3 arr nm nc nc) by (auto; lia).
    simpl. rewrite (IH fuel (month + 1) d) by lia.
    reflexivity.
Qed.

Lemma max_return_search (month c : Z) (v : Q) :
  0 <= month <= nm - 1 -> 0 <= c < nc ->
  max_return env month c v arr nm nc
  = Return (search arr nc t (Z.to_nat (nm - 1 - month)) month c v).
Proof.
  intros Hm Hc. unfold max_return. apply max_return_fuel_search; try lia.
  unfold frames. rewrite (has_shape_len _ _ _ _ Hshape). lia.
Qed.

(** The clamp: a non-terminal period never yields a negative value. *)
Lemma search_S_nonneg (k : nat) (p c : Z) (v : Q) :
  (0 <= search arr nc t (S k) p c v)%Q.
Proof. simpl. apply fold_py_max_acc. Qed.


Lemma legal_path_legal (month : Z) (ds : list Z) :
  0 <= month <= nm - 1 ->
  (legal_path nm nc t month ds <-> legal nc t (Z.to_nat (nm - 1 - month)) ds).
Proof.
  intros Hm. unfold legal_path.
  remember (Z.to_nat (nm - 1 - month)) as k eqn:Ek.
  assert (Hk : nm - month = Z.of_nat (S k)) by lia. rewrite Hk.
  clear Ek Hk Hm month. revert ds.
  induction k as [|k IH]; intros ds.
  - destruct ds as [|d [|d' ds]]; unfold len; cbn [List.length legal last In].
    + split; [intros (H1 & _); lia | contradiction].
    + split; [intros (_ & _ & H3); exact H3 | ].
      intros ->. split; [reflexivity|]. split; [ | reflexivity ].
      intros x [<-|[]]. exact Ht.
    + split; [intros (H1 & _); lia | contradiction].
  - destruct ds as [|d ds]; unfold len; cbn [List.length legal].
    + split; [intros (H1 & _); lia | contradiction].
    + rewrite <- IH. unfold len. split.
      * intros (H1 & H2 & H3). split; [apply H2; now left|].
        split; [lia|]. split; [intros x Hx; apply H2; now right|].
        destruct ds as [|d' ds]; [simpl in H1; lia | exact H3].
      * intros (Hd & H1 & H2 & H3). split; [lia|].
        split; [intros x [<-|Hx]; [exact Hd | now apply H2] | ].
        destruct ds as [|d' ds]; [simpl in H1; lia | exact H3].
Qed.

Hypothesis Hnonneg : nonneg arr = true.

Lemma V_nonneg (k : nat) : forall p c, (0 <= V arr nc t k p c)%Q.
Proof.
  destruct k as [|k]; intros p c; simpl; [now apply rate_nonneg|].
  destruct (py_range_cons nc) as (rest & E); [lia|]. rewrite E. simpl.
  eapply Qle_trans; [ | apply fold_Qmax_acc ].
  apply Qmult_le_0_compat; [now apply rate_nonneg|].
  clear E. revert p. induction k as [|k IH]; intros p; simpl.
  - now apply rate_nonneg.
  - destruct (py_range_cons nc) as (rest' & E'); [lia|]. rewrite E'. simpl.
    eapply Qle_trans; [ | apply fold_Qmax_acc ].
    apply Qmult_le_0_compat; [now apply rate_nonneg | apply IH].
Qed.

(** The search is the value times the table entry. *)
Lemma search_V (k : nat) :
  forall p c v, (0 <= v)%Q ->
    search arr nc t k p c v == v * V arr nc t k p c.
Proof.
  induction k as [|k IH]; intros p c v Hv; [reflexivity|].
  cbn [search V].
  pose (f := fun d => search arr nc t k (p + 1) d (v * rate arr p c d)).
  pose (g := fun d => (rate arr p c d * V arr nc t k (p + 1) d)%Q).
  change (fold_left (fun acc d => py_max acc (f d)) (py_range nc) 0%Q
          == v * max_over (map g (py_range nc))).
  assert (Hfg : forall d, f d == v * g d).
  { intros d. unfold f, g. rewrite IH.
    - ring.
    - apply Qmult_le_0_compat; [exact Hv | now apply rate_nonneg]. }
  assert (Hg : forall d, (0 <= g d)%Q).
  { intros d. apply Qmult_le_0_compat; [now apply rate_nonneg | apply V_nonneg]. }
  destruct (max_over_attained (map g (py_range nc))) as (x & Hx & Ex).
  { destruct (py_range_cons nc) as (rest & E); [lia|]. rewrite E. discriminate. }
  apply in_map_iff in Hx. destruct Hx as (d0 & <- & Hd0).
  apply Qle_antisym.
  - destruct (fold_py_max_attained f (py_range nc) 0%Q) as [E|(d & Hd & E)];
      rewrite E.
    + rewrite Ex. apply Qmult_le_0_compat; [exact Hv | apply Hg].
    + rewrite Hfg. apply Qmult_le_nonneg_l; [exact Hv|].
      apply max_over_ge. now apply in_map.
  - rewrite Ex, <- Hfg. now apply fold_py_max_ge.
Qed.

(** [V] is the maximum of the path products. *)
Lemma V_is_max (k : nat) :
  forall p c, is_max_over (legal nc t k) (path_product arr p c)
                (V arr nc t k p c).
Proof.
  induction k as [|k IH]; intros p c.
  - split.
    + exists [t]. split; [reflexivity|]. simpl. ring.
    + intros [|d [|d' ds]] H; simpl in H; try contradiction.
      subst d. simpl. ring_simplify. apply Qle_refl.
  - cbn [V]. pose (g := fun d => (rate arr p c d * V arr nc t k (p + 1) d)%Q).
    change (is_max_over (legal nc t (S k)) (path_product arr p c)
              (max_over (map g (py_range nc)))).
    split.
    + destruct (max_over_attained (map g (py_range nc))) as (x & Hx & Ex).
      { destruct (py_range_cons nc) as (rest & E); [lia|]. rewrite E. discriminate. }
      apply in_map_iff in Hx. destruct Hx as (d0 & <- & Hd0).
      destruct (IH (p + 1) d0) as [(ds & Hds & Eds) _].
      exists (d0 :: ds). split.
      * split; [now apply py_range_In | exact Hds].
      * simpl. rewrite Eds, Ex. reflexivity.
    + intros [|d ds] H; [contradiction|]. destruct H as [Hd Hds]. simpl.
      destruct (IH (p + 1) d) as [_ Hub].
      apply Qle_trans with (g d).
      * unfold g. apply Qmult_le_nonneg_l;
          [now apply rate_nonneg | now apply Hub].
      * apply max_over_ge. apply in_map. now apply py_range_In.
Qed.

End WellFormed.

(** ** Further facts about the recursion *)

Lemma getitem3_Raise (arr : ndarray) (m c t : Z) (e : exn) :
  getitem3 arr m c t = Raise e -> e = IndexError.
Proof.
  unfold getitem3, norm_index.
  repeat (destruct (_ && _); simpl; [ | intros [= <-]; reflexivity ]).
  discriminate.
Qed.

Lemma has_shape_getitem3_currency_above (arr : ndarray) (d0 d1 d2 m c t : Z) :
  has_shape arr d0 d1 d2 = true -> 0 <= m < d0 -> d1 <= c ->
  getitem3 arr m c t = Raise IndexError.
Proof.
  unfold has_shape. intros H Hm Hc.
  apply andb_prop in H. destruct H as [H0 H].
  apply Z.eqb_eq in H0. rewrite forallb_forall in H.
  unfold getitem3. rewrite norm_index_in_range by lia. simpl.
  assert (Hin : In (nth (Z.to_nat m) arr []) arr)
    by (apply nth_In; unfold len in H0; lia).
  apply H in Hin. apply andb_prop in Hin. destruct Hin as [H1 _].
  apply Z.eqb_eq in H1. now rewrite norm_index_above by lia.
Qed.

(** A loop whose body never lowers the accumulator ends at or above its
    start. *)
Lemma for_loop_grows {A : Type} (xs : list A) (body : A -> Q -> outcome Q) :
  (forall d acc a, body d acc = Return a -> (acc <= a)%Q) ->
  forall acc x, for_loop xs acc body = Return x -> (acc <= x)%Q.
Proof.
  intros Hb. induction xs as [|d xs IH]; intros acc x; simpl.
  - intros [= <-]. apply Qle_refl.
  - destruct (body d acc) as [a| |] eqn:E; simpl; try discriminate.
    intros Hx. apply Qle_trans with a; [now apply (Hb d) | now apply IH].
Qed.

Lemma for_loop_ext {A S : Type} (xs : list A)
    (body1 body2 : A -> S -> outcome S) :
  (forall x acc, body1 x acc = body2 x acc) ->
  forall acc, for_loop xs acc body1 = for_loop xs acc body2.
Proof.
  intros Hb. induction xs as [|x xs IH]; intros acc; simpl; [reflexivity|].
  rewrite Hb. destruct (body2 x acc); simpl; auto.
Qed.

(** The environment matters only through TO_TRADE_CURRENCY. *)
Lemma max_return_fuel_env (fuel : nat) (env1 env2 : environ) :
  getenv env1 TO_TRADE_CURRENCY "0" = getenv env2 TO_TRADE_CURRENCY "0" ->
  forall month c v arr nm nc,
    max_return_fuel fuel env1 month c v arr nm nc
    = max_return_fuel fuel env2 month c v arr nm nc.
Proof.
  intros He. induction fuel as [|fuel IH]; intros month c v arr nm nc;
    [reflexivity|].
  simpl. rewrite He. destruct (month =? nm - 1); [reflexivity|].
  apply for_loop_ext. intros d acc.
  destruct (getitem3 arr month c d); simpl; [ now rewrite IH | reflexivity .. ].
Qed.

(** From a month at or below the last one, the base case is reached after
    [nm - 1 - month] recursive calls at the latest, whatever the tensor. *)
Lemma max_return_fuel_bounded (k : nat) :
  forall fuel env month c v arr nm nc,
    nm - 1 - month = Z.of_nat k -> (k < fuel)%nat ->
    max_return_fuel fuel env month c v arr nm nc <> OutOfFuel.
Proof.
  induction k as [|k IH]; intros fuel env month c v arr nm nc Hk Hf;
    (destruct fuel as [|fuel]; [lia|]); simpl.
  - replace (month =? nm - 1) with true by (symmetry; apply Z.eqb_eq; lia).
    destruct (py_int _) as [t| |] eqn:Et; simpl;
      [ | discriminate | now apply py_int_fuel in Et ].
    destruct (getitem3 arr month c t) as [r| |] eqn:Er; simpl;
      [ discriminate | discriminate | now apply getitem3_fuel in Er ].
  - replace (month =? nm - 1) with false by (symmetry; apply Z.eqb_neq; lia).
    apply for_loop_fuel. intros d acc _.
    destruct (getitem3 arr month c d) as [r| |] eqn:Er; simpl;
      [ | discriminate | now apply getitem3_fuel in Er ].
    specialize (IH fuel env (month + 1) d (v * r)%Q arr nm nc).
    destruct (max_return_fuel fuel env (month + 1) d (v * r)%Q arr nm nc);
      simpl; [ discriminate | discriminate | ].
    apply IH; lia.
Qed.

(** On a well-shaped tensor the first branch of every loop goes down to the
    last month: one frame less than [nm - month] is not enough. *)
Lemma max_return_fuel_depth (k : nat) :
  forall env month c v arr nm nc,
    has_shape arr nm nc nc = true ->
    nm - 1 - month = Z.of_nat k -> 0 <= month -> 0 <= c < nc ->
    max_return_fuel k env month c v arr nm nc = OutOfFuel.
Proof.
  induction k as [|k IH]; intros env month c v arr nm nc Hs Hk Hm Hc;
    [reflexivity|].
  simpl. replace (month =? nm - 1) with false by (symmetry; apply Z.eqb_neq; lia).
  destruct (py_range_cons nc) as (rest & E); [lia|]. rewrite E. simpl.
  rewrite (has_shape_getitem3 arr nm nc nc) by (auto; lia). simpl.
  rewrite IH by (auto; lia). reflexivity.
Qed.

(** Above the last month no frame takes the base case: the recursion ends
    only when a read falls off the tensor. *)
Lemma max_return_fuel_above (fuel : nat) :
  forall env month c v arr nm nc,
    nm - 1 < month -> 1 <= nc ->
    max_return_fuel fuel env month c v arr nm nc <> OutOfFuel ->
    max_return_fuel fuel env month c v arr nm nc = Raise IndexError.
Proof.
  induction fuel as [|fuel IH]; intros env month c v arr nm nc Hm Hnc;
    [ intros H; now elim H | ].
  simpl. replace (month =? nm - 1) with false by (symmetry; apply Z.eqb_neq; lia).
  destruct (py_range_cons nc) as (rest & E); [lia|]. rewrite E. simpl.
  destruct (getitem3 arr month c 0) as [r|e|] eqn:Er; simpl.
  - intros Hne.
    rewrite IH; [reflexivity | lia | lia | ].
    intros E'. apply Hne. now rewrite E'.
  - intros _. now rewrite (getitem3_Raise _ _ _ _ _ Er).
  - intros H; now elim H.
Qed.

(** * The claims *)

(** In exact arithmetic: for a tensor of non-negative rates of shape
    [(num_months, num_currencies, num_currencies)], a month and a currency
    in range and a non-negative portfolio value, [max_return] returns the
    portfolio value times the maximum, over the legal paths (one destination
    per period from [month] to [num_months - 1], the last one the target
    currency), of the product of the rates along the path. *)
Lemma max_return_best_path (env : environ) (arr : ndarray)
    (nm nc t month c : Z) (v : Q) :
  has_shape arr nm nc nc = true ->
  nonneg arr = true ->
  target_is env t -> 0 <= t < nc ->
  0 <= month < nm -> 0 <= c < nc -> (0 <= v)%Q ->
  exists x M,
    max_return env month c v arr nm nc = Return x /\
    x == v * M /\
    is_max_over (legal_path nm nc t month) (path_product arr month c) M.
Proof.
  intros Hs Hn Ht Htr Hm Hc Hv.
  set (k := Z.to_nat (nm - 1 - month)).
  exists (search arr nc t k month c v), (V arr nc t k month c).
  split; [ apply (max_return_search env arr nm nc t); auto; lia | ].
  split; [ apply (search_V arr nc t); auto | ].
  destruct (V_is_max arr nc t Htr Hn k month c) as [(ds & Hds & E) Hub].
  split.
  - exists ds. split; [ | exact E ].
    apply (legal_path_legal nm nc t Htr month ds); [lia | exact Hds].
  - intros ds' Hds'. apply Hub.
    apply (legal_path_legal nm nc t Htr month ds'); [lia | exact Hds'].
Qed.



(** C7. Non-negativity: on a valid call with non-negative rates and a
    non-negative portfolio value the result is non-negative. *)
Theorem max_return_nonneg (env : environ) (arr : ndarray)
    (nm nc t month c : Z) (v : Q) :
  has_shape arr nm nc nc = true ->
  nonneg arr = true ->
  target_is env t -> 0 <= t < nc ->
  0 <= month < nm -> 0 <= c < nc -> (0 <= v)%Q ->
  exists x, max_return env month c v arr nm nc = Return x /\ (0 <= x)%Q.
Proof.
  intros Hs Hn Ht Htr Hm Hc Hv.
  set (k := Z.to_nat (nm - 1 - month)).
  exists (search arr nc t k month c v).
  split; [ apply (max_return_search env arr nm nc t); auto; lia | ].
  rewrite (search_V arr nc t) by auto.
  apply Qmult_le_0_compat; [exact Hv | now apply V_nonneg].
Qed.

Lemma max_return_nonneg_witness :
  exists x,
    max_return default_env 0 1 (5#2) two_period_tensor 2 2 = Return x /\
    (0 <= x)%Q.
Proof.
  apply (max_return_nonneg default_env two_period_tensor 2 2 0 0 1 (5#2));
    try reflexivity; try lia.
  unfold Qle; simpl; lia.
Defined.

(** C2. At the last month ([month = num_months - 1], in particular for one
    period and month 0) [max_return] returns [v * rate[month][c][target]]
    for every currency [c], in a single frame, without recursion; in the
    boundary scenario (1 period, 2 currencies, target 0, rates
    [[1.0, 2.0], [0.5, 1.0]], start currency 1, value 1.0) the result
    is 0.5. *)
Theorem max_return_last_month :
  (forall env arr nm nc t month c v,
      has_shape arr nm nc nc = true ->
      target_is env t -> 0 <= t < nc ->
      month = nm - 1 -> 0 <= month -> 0 <= c < nc ->
      max_return env month c v arr nm nc = Return (v * rate arr month c t)%Q /\
      max_return_fuel 1 env month c v arr nm nc
      = Return (v * rate arr month c t)%Q) /\
  (forall env arr nc t c v,
      has_shape arr 1 nc nc = true ->
      target_is env t -> 0 <= t < nc -> 0 <= c < nc ->
      max_return env 0 c v arr 1 nc = Return (v * rate arr 0 c t)%Q) /\
  (exists x,
      max_return default_env 0 1 1 boundary_tensor 1 2 = Return x /\
      x == 0.5).
Proof.
  assert (H : forall env arr nm nc t month c v,
      has_shape arr nm nc nc = true ->
      target_is env t -> 0 <= t < nc ->
      month = nm - 1 -> 0 <= month -> 0 <= c < nc ->
      max_return env month c v arr nm nc = Return (v * rate arr month c t)%Q /\
      max_return_fuel 1 env month c v arr nm nc
      = Return (v * rate arr month c t)%Q).
  { intros env arr nm nc t month c v Hs Ht Htr Hm H0 Hc.
    assert (E : max_return_fuel 1 env month c v arr nm nc
                = Return (v * rate arr month c t)%Q).
    { apply (max_return_fuel_search env arr nm nc t Hs Ht Htr 0); simpl; lia. }
    split; [ | exact E ].
    rewrite (max_return_fuel_enough 1); [exact E | now rewrite E]. }
  split; [exact H|]. split.
  - intros env arr nc t c v Hs Ht Htr Hc.
    apply (H env arr 1 nc t 0 c v); auto; lia.
  - exists (1#2). split; reflexivity.
Qed.

Lemma max_return_last_month_witness :
  max_return default_env 0 1 1 boundary_tensor 1 2
  = Return (1 * rate boundary_tensor 0 1 0)%Q /\
  max_return_fuel 1 default_env 0 1 1 boundary_tensor 1 2
  = Return (1 * rate boundary_tensor 0 1 0)%Q.
Proof.
  apply (proj1 max_return_last_month default_env boundary_tensor 1 2 0 0 1 1%Q);
    try reflexivity; lia.
Defined.

(** C8. Two periods, two currencies, target 0, period-0 rates
    [[1,2],[1,1]], period-1 rates [[1,1],[3,1]], start currency 0, value
    1.0: [max_return(0, 0, 1.0, tensor, 2, 2)] is 6.0, the value of the
    path 0 -> 1 (rate 2) then 1 -> 0 (rate 3). *)
Theorem max_return_two_periods :
  max_return default_env 0 0 1 two_period_tensor 2 2 = Return 6%Q /\
  legal_path 2 2 0 0 [1; 0] /\
  path_product two_period_tensor 0 0 [1; 0] == 6.
Proof.
  split; [reflexivity|]. split; [ | reflexivity ].
  split; [reflexivity|]. split; [ | reflexivity ].
  intros d [<-|[<-|[]]]; lia.
Qed.

(** C9. Clamping at a non-terminal month: for [month < num_months - 1]
    every result of [max_return] is non-negative, whatever the portfolio
    value (negative ones included) and the tensor (negative entries
    included), because the accumulator of the loop starts at 0 and is only
    replaced by greater values; and on a well-shaped tensor such a call
    does return a result. *)
Theorem max_return_clamped :
  (forall env arr nm nc month c v x,
      month < nm - 1 ->
      max_return env month c v arr nm nc = Return x -> (0 <= x)%Q) /\
  (forall env arr nm nc t month c v,
      has_shape arr nm nc nc = true ->
      target_is env t -> 0 <= t < nc ->
      0 <= month < nm - 1 -> 0 <= c < nc ->
      exists x, max_return env month c v arr nm nc = Return x /\ (0 <= x)%Q).
Proof.
  assert (H : forall env arr nm nc month c v x,
      month < nm - 1 ->
      max_return env month c v arr nm nc = Return x -> (0 <= x)%Q).
  { intros env arr nm nc month c v x Hm. unfold max_return, frames. simpl.
    replace (month =? nm - 1) with false by (symmetry; apply Z.eqb_neq; lia).
    apply for_loop_grows. intros d acc a.
    destruct (getitem3 arr month c d) as [r| |]; simpl; try discriminate.
    destruct (max_return_fuel _ env (month + 1) d (v * r)%Q arr nm nc)
      as [y| |]; simpl; try discriminate.
    intros [= <-]. destruct (py_max_spec acc y) as [[Hlt ->]|[_ ->]].
    - now apply Qlt_le_weak.
    - apply Qle_refl. }
  split; [exact H|].
  intros env arr nm nc t month c v Hs Ht Htr Hm Hc.
  exists (search arr nc t (Z.to_nat (nm - 1 - month)) month c v).
  assert (E : max_return env month c v arr nm nc
              = Return (search arr nc t (Z.to_nat (nm - 1 - month)) month c v))
    by (apply (max_return_search env arr nm nc t); auto; lia).
  split; [exact E|]. apply (H _ _ _ _ _ _ _ _ (proj2 Hm) E).
Qed.

Lemma max_return_clamped_witness :
  exists x,
    max_return default_env 0 0 (-1) [[[1; -2]; [1; 1]]; [[1; 1]; [3; 1]]]%Q 2 2
    = Return x /\ (0 <= x)%Q.
Proof.
  apply (proj2 max_return_clamped default_env
           [[[1; -2]; [1; 1]]; [[1; 1]; [3; 1]]]%Q 2 2 0 0 0 (-1)%Q);
    try reflexivity; lia.
Defined.

(** The clamp at work: a negative value at a non-terminal month gives 0,
    not the proportionally negative -1. *)
Example max_return_clamps_negative_value :
  max_return default_env 0 0 (-1) two_period_tensor 2 2 = Return 0%Q.
Proof. reflexivity. Qed.

(** C10. Termination: from [0 <= month <= num_months - 1] the call
    terminates for every tensor, within [num_months - 1 - month] nested
    recursive calls; on a well-shaped tensor exactly that many are made
    (one frame less runs out); above the last month there is no base case,
    and the call ends only with the IndexError of a read past the tensor. *)
Theorem max_return_terminates :
  (forall env arr nm nc month c v,
      0 <= month <= nm - 1 ->
      max_return_fuel (S (Z.to_nat (nm - 1 - month))) env month c v arr nm nc
      <> OutOfFuel /\
      max_return env month c v arr nm nc
      = max_return_fuel (S (Z.to_nat (nm - 1 - month))) env month c v arr nm nc) /\
  (forall env arr nm nc month c v,
      has_shape arr nm nc nc = true ->
      0 <= month <= nm - 1 -> 0 <= c < nc ->
      max_return_fuel (Z.to_nat (nm - 1 - month)) env month c v arr nm nc
      = OutOfFuel) /\
  (forall env arr nm nc month c v,
      nm - 1 < month -> 1 <= nc ->
      max_return env month c v arr nm nc = Raise IndexError).
Proof.
  split; [ | split ].
  - intros env arr nm nc month c v Hm.
    assert (H : max_return_fuel (S (Z.to_nat (nm - 1 - month))) env month c v
                  arr nm nc <> OutOfFuel)
      by (apply (max_return_fuel_bounded (Z.to_nat (nm - 1 - month))); lia).
    split; [exact H | now apply max_return_fuel_enough].
  - intros env arr nm nc month c v Hs Hm Hc.
    apply max_return_fuel_depth; auto; lia.
  - intros env arr nm nc month c v Hm Hnc.
    apply max_return_fuel_above; auto. apply max_return_total.
Qed.

Lemma max_return_terminates_witness :
  max_return_fuel (S (Z.to_nat (2 - 1 - 0))) default_env 0 0 1
    two_period_tensor 2 2 <> OutOfFuel /\
  max_return default_env 0 0 1 two_period_tensor 2 2
  = max_return_fuel (S (Z.to_nat (2 - 1 - 0))) default_env 0 0 1
      two_period_tensor 2 2.
Proof.
  apply (proj1 max_return_terminates default_env two_period_tensor 2 2 0 0 1%Q).
  lia.
Defined.

(** C4 (as stated, refuted). A negative portfolio value is not rejected:
    the call returns a number, and no exception is raised. *)
Lemma max_return_accepts_negative_value :
  (-1 < 0)%Q /\
  max_return default_env 0 1 (-1) boundary_tensor 1 2 = Return (-1 # 2)%Q /\
  ~ (exists e, max_return default_env 0 1 (-1) boundary_tensor 1 2 = Raise e).
Proof.
  split; [reflexivity|]. split; [reflexivity|].
  intros (e & H). discriminate H.
Qed.

(** A tensor with more months than [num_months] is not rejected either. *)
Example max_return_accepts_shape_mismatch :
  has_shape two_period_tensor 1 2 2 = false /\
  max_return default_env 0 0 1 two_period_tensor 1 2 = Return 1%Q.
Proof. split; reflexivity. Qed.

(** Nor is a negative month: numpy counts it from the end. *)
Example max_return_accepts_negative_month :
  max_return default_env (-1) 0 1 boundary_tensor 1 2 = Return 1%Q.
Proof. reflexivity. Qed.

(** A tensor with fewer months than [num_months] fails inside the
    recursion, with numpy's IndexError. *)
Example max_return_short_tensor :
  has_shape boundary_tensor 2 2 2 = false /\
  max_return default_env 0 0 1 boundary_tensor 2 2 = Raise IndexError.
Proof. split; reflexivity. Qed.

(** C4 (amended). [max_return] checks nothing before it starts.  On a
    tensor of shape [(num_months, num_currencies, num_currencies)] with the
    target in range, a call with month and currency in range returns a
    number for every portfolio value, negative ones included; a month at or
    above [num_months], or a currency at or above [num_currencies], ends
    with numpy's IndexError at a tensor read. *)
Theorem max_return_unchecked (env : environ) (arr : ndarray) (nm nc t c : Z) :
  has_shape arr nm nc nc = true ->
  target_is env t -> 0 <= t < nc -> 0 <= c < nc ->
  (forall month v, 0 <= month < nm ->
     exists x, max_return env month c v arr nm nc = Return x) /\
  (forall month v, nm <= month ->
     max_return env month c v arr nm nc = Raise IndexError) /\
  (forall month c' v, 0 <= month < nm -> nc <= c' ->
     max_return env month c' v arr nm nc = Raise IndexError).
Proof.
  intros Hs Ht Htr Hc. split; [ | split ].
  - intros month v Hm. eexists.
    apply (max_return_search env arr nm nc t); auto; lia.
  - intros month v Hm.
    apply max_return_fuel_above; [lia | lia | apply max_return_total].
  - intros month c' v Hm Hc'. unfold max_return, frames. simpl.
    destruct (month =? nm - 1).
    + red in Ht. rewrite Ht. simpl.
      now rewrite (has_shape_getitem3_currency_above arr nm nc nc).
    + destruct (py_range_cons nc) as (rest & E); [lia|]. rewrite E. simpl.
      now rewrite (has_shape_getitem3_currency_above arr nm nc nc).
Qed.

Lemma max_return_unchecked_witness :
  (forall month v, 0 <= month < 2 ->
     exists x, max_return default_env month 0 v two_period_tensor 2 2 = Return x) /\
  (forall month v, 2 <= month ->
     max_return default_env month 0 v two_period_tensor 2 2 = Raise IndexError) /\
  (forall month c' v, 0 <= month < 2 -> 2 <= c' ->
     max_return default_env month c' v two_period_tensor 2 2 = Raise IndexError).
Proof.
  apply (max_return_unchecked default_env two_period_tensor 2 2 0 0);
    try reflexivity; lia.
Defined.

(** C5 (as stated, refuted). The same six arguments give different results
    in two environments: the target currency is read from
    TO_TRADE_CURRENCY. *)
Lemma max_return_depends_on_environment :
  max_return default_env 0 0 1 two_period_tensor 2 2 = Return 6%Q /\
  max_return [(TO_TRADE_CURRENCY, "1"%string)] 0 0 1 two_period_tensor 2 2
  = Return 2%Q /\
  max_return default_env 0 0 1 two_period_tensor 2 2
  <> max_return [(TO_TRADE_CURRENCY, "1"%string)] 0 0 1 two_period_tensor 2 2.
Proof.
  split; [reflexivity|]. split; [reflexivity|]. discriminate.
Qed.

(** C5 (amended). The result of [max_return] is determined by its six
    arguments together with the value of the environment variable
    TO_TRADE_CURRENCY (default "0"): two calls with the same arguments in
    environments that agree on it give the same outcome. *)
Theorem max_return_reads_only_target (env1 env2 : environ)
    (month c : Z) (v : Q) (arr : ndarray) (nm nc : Z) :
  getenv env1 TO_TRADE_CURRENCY "0" = getenv env2 TO_TRADE_CURRENCY "0" ->
  max_return env1 month c v arr nm nc = max_return env2 month c v arr nm nc.
Proof. intros He. unfold max_return. now apply max_return_fuel_env. Qed.

Lemma max_return_reads_only_target_witness :
  max_return [("START_MONTH", "1"); ("FROM_CURRENCY", "1")]%string
    0 0 1 two_period_tensor 2 2
  = max_return default_env 0 0 1 two_period_tensor 2 2.
Proof.
  apply (max_return_reads_only_target
           [("START_MONTH", "1"); ("FROM_CURRENCY", "1")]%string
           default_env).
  reflexivity.
Defined.

(** * Beyond the claims: settings, caller, loader and command line *)

(** ** More facts about indexing *)

Lemma py_int_Raise (s : string) (e : exn) : py_int s = Raise e -> e = ValueError.
Proof.
  unfold py_int.
  destruct (match strip (list_ascii_of_string s) with
            | [] => _ | _ :: _ => _ end); [ | now intros [= <-] ].
  destruct (4300 <? _)%nat; [ now intros [= <-] | discriminate ].
Qed.

Lemma norm_index_Return_lt (i n : Z) (k : nat) :
  norm_index i n = Return k -> Z.of_nat k < n.
Proof.
  unfold norm_index.
  destruct (- n <=? i) eqn:E1; destruct (i <? n) eqn:E2; simpl; try discriminate.
  apply Z.leb_le in E1. apply Z.ltb_lt in E2.
  destruct (i <? 0) eqn:E3; intros [= <-];
    [apply Z.ltb_lt in E3 | apply Z.ltb_ge in E3]; lia.
Qed.

Lemma norm_index_wrap (i n : Z) :
  - n <= i < 0 -> norm_index i n = norm_index (i + n) n.
Proof.
  intros H. rewrite (norm_index_in_range (i + n)) by lia.
  unfold norm_index.
  replace (- n <=? i) with true by (symmetry; apply Z.leb_le; lia).
  replace (i <? n) with true by (symmetry; apply Z.ltb_lt; lia).
  replace (i <? 0) with true by (symmetry; apply Z.ltb_lt; lia).
  reflexivity.
Qed.

Lemma norm_index_outside (i n : Z) :
  ~ (- n <= i < n) -> norm_index i n = Raise IndexError.
Proof.
  intros H. unfold norm_index.
  destruct (- n <=? i) eqn:E1; destruct (i <? n) eqn:E2; simpl; try reflexivity.
  apply Z.leb_le in E1. apply Z.ltb_lt in E2. lia.
Qed.

(** The sizes of the inner lists of a well-shaped array. *)
Lemma has_shape_rows (arr : ndarray) (d0 d1 d2 : Z) (im ic : nat) :
  has_shape arr d0 d1 d2 = true ->
  Z.of_nat im < len arr ->
  len (nth im arr []) = d1 /\
  (Z.of_nat ic < d1 -> len (nth ic (nth im arr []) []) = d2).
Proof.
  unfold has_shape. intros H Him.
  apply andb_prop in H. destruct H as [_ H]. rewrite forallb_forall in H.
  assert (Hin : In (nth im arr []) arr) by (apply nth_In; unfold len in Him; lia).
  apply H in Hin. apply andb_prop in Hin. destruct Hin as [H1 Hrows].
  apply Z.eqb_eq in H1. split; [exact H1|]. intros Hic.
  rewrite forallb_forall in Hrows. apply Z.eqb_eq, Hrows, nth_In.
  unfold len in H1. lia.
Qed.

(** A negative last index counts from the end of the axis. *)
Lemma getitem3_target_wrap (arr : ndarray) (d0 d1 d2 m c t : Z) :
  has_shape arr d0 d1 d2 = true -> - d2 <= t < 0 ->
  getitem3 arr m c t = getitem3 arr m c (t + d2).
Proof.
  intros Hs Ht. unfold getitem3.
  destruct (norm_index m (len arr)) as [im| |] eqn:Em; simpl; try reflexivity.
  apply norm_index_Return_lt in Em.
  destruct (has_shape_rows arr d0 d1 d2 im 0 Hs Em) as [H1 _].
  destruct (norm_index c _) as [ic| |] eqn:Ec; simpl; try reflexivity.
  apply norm_index_Return_lt in Ec. rewrite H1 in Ec.
  destruct (has_shape_rows arr d0 d1 d2 im ic Hs Em) as [_ H2].
  rewrite (H2 Ec). now rewrite norm_index_wrap.
Qed.

Lemma getitem3_target_outside (arr : ndarray) (d0 d1 d2 m c t : Z) :
  has_shape arr d0 d1 d2 = true ->
  0 <= m < d0 -> 0 <= c < d1 -> ~ (- d2 <= t < d2) ->
  getitem3 arr m c t = Raise IndexError.
Proof.
  intros Hs Hm Hc Ht. unfold getitem3.
  pose proof (has_shape_len _ _ _ _ Hs) as H0.
  rewrite norm_index_in_range by lia. simpl.
  destruct (has_shape_rows arr d0 d1 d2 (Z.to_nat m) (Z.to_nat c) Hs)
    as [H1 H2]; [lia|].
  rewrite H1, norm_index_in_range by lia. simpl.
  rewrite H2 by lia. now rewrite norm_index_outside.
Qed.

(** Every entry a read returns is an entry of the array. *)
Lemma getitem3_nonneg (arr : ndarray) (m c t : Z) (r : Q) :
  nonneg arr = true -> getitem3 arr m c t = Return r -> (0 <= r)%Q.
Proof.
  intros Hn. unfold getitem3.
  destruct (norm_index m _) as [im| |]; simpl; try discriminate.
  destruct (norm_index c _) as [ic| |]; simpl; try discriminate.
  destruct (norm_index t _) as [it| |]; simpl; try discriminate.
  intros [= <-].
  pose proof (rate_nonneg arr (Z.of_nat im) (Z.of_nat ic) (Z.of_nat it) Hn) as H.
  unfold rate in H. now rewrite !Nat2Z.id in H.
Qed.

(** If the last month raises [e] for every currency, so does every call
    that reaches it. *)
Lemma max_return_fuel_raises (env : environ) (arr : ndarray) (nm nc : Z)
    (e : exn) :
  has_shape arr nm nc nc = true ->
  (forall fuel c v, 0 <= c < nc ->
     max_return_fuel (S fuel) env (nm - 1) c v arr nm nc = Raise e) ->
  forall (k fuel : nat) month c v,
    month = nm - 1 - Z.of_nat k -> 0 <= month -> 0 <= c < nc ->
    (k < fuel)%nat ->
    max_return_fuel fuel env month c v arr nm nc = Raise e.
Proof.
  intros Hs Hlast. induction k as [|k IH]; intros fuel month c v Hm H0 Hc Hf;
    (destruct fuel as [|fuel]; [lia|]).
  - replace month with (nm - 1) by lia. now apply Hlast.
  - simpl.
    replace (month =? nm - 1) with false by (symmetry; apply Z.eqb_neq; lia).
    destruct (py_range_cons nc) as (rest & E); [lia|]. rewrite E. simpl.
    rewrite (has_shape_getitem3 arr nm nc nc) by (auto; lia). simpl.
    rewrite IH by lia. reflexivity.
Qed.

Lemma fold_left_ext_in {A B : Type} (f g : A -> B -> A) (xs : list B) :
  (forall a x, In x xs -> f a x = g a x) ->
  forall a, fold_left f xs a = fold_left g xs a.
Proof.
  induction xs as [|x xs IH]; intros H a; simpl; [reflexivity|].
  rewrite (H a x (or_introl eq_refl)). apply IH.
  intros a' y Hy. apply H. now right.
Qed.

(** The search reads the rates of the periods from [p] on, and only for
    currencies below [nc] and the target. *)
Lemma search_ext (arr arr' : ndarray) (nc t : Z) (k : nat) :
  forall p c v,
    (forall q a b, p <= q <= p + Z.of_nat k -> rate arr q a b = rate arr' q a b) ->
    search arr nc t k p c v = search arr' nc t k p c v.
Proof.
  induction k as [|k IH]; intros p c v H; simpl.
  - rewrite (H p c t) by lia. reflexivity.
  - apply fold_left_ext_in. intros acc d _.
    rewrite (H p c d) by lia. f_equal. apply IH.
    intros q a b Hq. apply H. lia.
Qed.

(** ** The target setting *)

Lemma lstrip_In (l : list ascii) (a : ascii) : In a (lstrip l) -> In a l.
Proof.
  induction l as [|b l IH]; simpl; [auto|].
  destruct (is_space b); [ intros H; right; now apply IH | auto ].
Qed.

Lemma strip_In (l : list ascii) (a : ascii) : In a (strip l) -> In a l.
Proof.
  unfold strip. intros H. apply in_rev, lstrip_In, in_rev, lstrip_In in H.
  exact H.
Qed.

Lemma parse_digits_without_digit (l : list ascii) (acc : Z) :
  (forall a, In a l -> digit_of a = None) -> parse_digits l acc false = None.
Proof.
  destruct l as [|a rest]; intros H; simpl; [reflexivity|].
  rewrite (H a (or_introl eq_refl)). now rewrite andb_false_r.
Qed.

(** A string of ASCII characters without a digit is no integer literal. *)
Lemma py_int_without_digit (s : string) :
  ascii_without_digit s = true -> py_int s = Raise ValueError.
Proof.
  unfold ascii_without_digit. rewrite forallb_forall. intros H.
  assert (Hd : forall a, In a (strip (list_ascii_of_string s)) ->
                         digit_of a = None).
  { intros a Ha. apply strip_In, H in Ha. apply andb_prop in Ha.
    destruct Ha as [_ Ha]. now destruct (digit_of a). }
  unfold py_int. destruct (strip (list_ascii_of_string s)) as [|a rest];
    [reflexivity|].
  assert (H0 : parse_digits (a :: rest) 0 false = None)
    by now apply parse_digits_without_digit.
  assert (H1 : parse_digits rest 0 false = None).
  { apply parse_digits_without_digit. intros b Hb. apply Hd. now right. }
  destruct a as [[] [] [] [] [] [] [] []];
    rewrite ?H0, ?H1; reflexivity.
Qed.

(** X1. If the value of TO_TRADE_CURRENCY is made of ASCII characters none
    of which is a digit (a currency code, say), every in-range call on a
    well-shaped tensor fails with ValueError. *)
Theorem max_return_malformed_target (env : environ) (arr : ndarray)
    (nm nc month c : Z) (v : Q) :
  has_shape arr nm nc nc = true ->
  ascii_without_digit (getenv env TO_TRADE_CURRENCY "0") = true ->
  0 <= month < nm -> 0 <= c < nc ->
  max_return env month c v arr nm nc = Raise ValueError.
Proof.
  intros Hs He Hm Hc. apply py_int_without_digit in He. unfold max_return.
  apply (max_return_fuel_raises env arr nm nc ValueError Hs)
    with (k := Z.to_nat (nm - 1 - month)); try lia.
  - intros fuel c' v' _. simpl. rewrite Z.eqb_refl, He. reflexivity.
  - unfold frames. rewrite (has_shape_len _ _ _ _ Hs). lia.
Qed.

Lemma max_return_malformed_target_witness :
  max_return [(TO_TRADE_CURRENCY, "GBP"%string)] 0 0 1 two_period_tensor 2 2
  = Raise ValueError.
Proof.
  apply max_return_malformed_target; try reflexivity; lia.
Defined.

(** X2. A target currency outside [-num_currencies, num_currencies) makes
    every in-range call on a well-shaped tensor fail with IndexError. *)
Theorem max_return_target_out_of_range (env : environ) (arr : ndarray)
    (nm nc t month c : Z) (v : Q) :
  has_shape arr nm nc nc = true ->
  target_is env t -> ~ (- nc <= t < nc) ->
  0 <= month < nm -> 0 <= c < nc ->
  max_return env month c v arr nm nc = Raise IndexError.
Proof.
  intros Hs Ht Htr Hm Hc. unfold max_return.
  apply (max_return_fuel_raises env arr nm nc IndexError Hs)
    with (k := Z.to_nat (nm - 1 - month)); try lia.
  - intros fuel c' v' Hc'. simpl. red in Ht. rewrite Z.eqb_refl, Ht. simpl.
    rewrite (getitem3_target_outside arr nm nc nc) by (auto; lia).
    reflexivity.
  - unfold frames. rewrite (has_shape_len _ _ _ _ Hs). lia.
Qed.

Lemma max_return_target_out_of_range_witness :
  max_return [(TO_TRADE_CURRENCY, "2"%string)] 0 0 1 two_period_tensor 2 2
  = Raise IndexError.
Proof.
  apply (max_return_target_out_of_range _ _ 2 2 2); try reflexivity; lia.
Defined.

(** X3. A negative target currency counts from the end: on a well-shaped
    tensor, target [t] with [-num_currencies <= t < 0] gives the outcome of
    target [t + num_currencies], for every call. *)
Theorem max_return_negative_target (env1 env2 : environ) (arr : ndarray)
    (nm nc t month c : Z) (v : Q) :
  has_shape arr nm nc nc = true ->
  target_is env1 t -> target_is env2 (t + nc) -> - nc <= t < 0 ->
  max_return env1 month c v arr nm nc = max_return env2 month c v arr nm nc.
Proof.
  intros Hs H1 H2 Ht. unfold max_return.
  generalize (frames arr month) as fuel. intros fuel.
  revert month c v. induction fuel as [|fuel IH]; intros month c v;
    [reflexivity|].
  simpl. destruct (month =? nm - 1).
  - red in H1, H2. rewrite H1, H2. simpl.
    now rewrite (getitem3_target_wrap arr nm nc nc).
  - apply for_loop_ext. intros d acc.
    destruct (getitem3 arr month c d); simpl; [ now rewrite IH | reflexivity .. ].
Qed.

Lemma max_return_negative_target_witness :
  max_return [(TO_TRADE_CURRENCY, "-1"%string)] 0 0 1 two_period_tensor 2 2
  = max_return [(TO_TRADE_CURRENCY, "1"%string)] 0 0 1 two_period_tensor 2 2.
Proof.
  apply (max_return_negative_target _ _ _ 2 2 (-1)); try reflexivity; lia.
Defined.

(** ** The value and the tensor *)

(** X4. On a valid call the result grows with the portfolio value. *)
Theorem max_return_monotone (env : environ) (arr : ndarray)
    (nm nc t month c : Z) (v v' : Q) :
  has_shape arr nm nc nc = true ->
  nonneg arr = true ->
  target_is env t -> 0 <= t < nc ->
  0 <= month < nm -> 0 <= c < nc -> (0 <= v)%Q -> (v <= v')%Q ->
  exists x x',
    max_return env month c v arr nm nc = Return x /\
    max_return env month c v' arr nm nc = Return x' /\
    (x <= x')%Q.
Proof.
  intros Hs Hn Ht Htr Hm Hc Hv Hvv.
  set (k := Z.to_nat (nm - 1 - month)).
  exists (search arr nc t k month c v), (search arr nc t k month c v').
  split; [ apply (max_return_search env arr nm nc t); auto; lia | ].
  split; [ apply (max_return_search env arr nm nc t); auto; lia | ].
  rewrite !(search_V arr nc t) by (auto; lra).
  pose proof (V_nonneg arr nc t Htr Hn k month c) as HV. nra.
Qed.

Lemma max_return_monotone_witness :
  exists x x',
    max_return default_env 0 0 1 two_period_tensor 2 2 = Return x /\
    max_return default_env 0 0 (3 # 2) two_period_tensor 2 2 = Return x' /\
    (x <= x')%Q.
Proof.
  apply (max_return_monotone default_env two_period_tensor 2 2 0);
    try reflexivity; try lia; unfold Qle; simpl; lia.
Defined.

Lemma max_return_fuel_Return_nonneg (fuel : nat) (env : environ)
    (arr : ndarray) (nm nc month c : Z) (v x : Q) :
  nonneg arr = true -> (0 <= v)%Q ->
  max_return_fuel fuel env month c v arr nm nc = Return x -> (0 <= x)%Q.
Proof.
  intros Hn Hv. destruct fuel as [|fuel]; [discriminate|]. simpl.
  destruct (month =? nm - 1).
  - destruct (py_int _) as [t| |]; simpl; try discriminate.
    destruct (getitem3 arr month c t) as [r| |] eqn:Er; simpl; try discriminate.
    intros [= <-]. apply Qmult_le_0_compat; [exact Hv|].
    now apply (getitem3_nonneg arr month c t).
  - apply for_loop_grows. intros d acc a.
    destruct (getitem3 arr month c d) as [r| |]; simpl; try discriminate.
    destruct (max_return_fuel _ env (month + 1) d (v * r)%Q arr nm nc)
      as [y| |]; simpl; try discriminate.
    intros [= <-]. destruct (py_max_spec acc y) as [[Hlt ->]|[_ ->]].
    + now apply Qlt_le_weak.
    + apply Qle_refl.
Qed.

(** X5. On a tensor without negative entries, whatever its shape and
    whatever the indices, a result of [max_return] for a non-negative
    portfolio value is never negative. *)
Theorem max_return_never_negative (env : environ) (arr : ndarray)
    (nm nc month c : Z) (v x : Q) :
  nonneg arr = true -> (0 <= v)%Q ->
  max_return env month c v arr nm nc = Return x -> (0 <= x)%Q.
Proof. unfold max_return. apply max_return_fuel_Return_nonneg. Qed.

Lemma max_return_never_negative_witness :
  max_return default_env (-1) (-1) 1 two_period_tensor 1 2 = Return 3%Q /\
  (0 <= 3)%Q.
Proof.
  split; [reflexivity|].
  apply (max_return_never_negative default_env two_period_tensor 1 2 (-1) (-1) 1 3);
    try reflexivity.
  unfold Qle; simpl; lia.
Defined.

(** X6. The result depends only on the months from the starting month on:
    two well-shaped tensors with the same rates in the months
    [month .. num_months - 1] give the same result. *)
Theorem max_return_reads_from_month (env : environ) (arr arr' : ndarray)
    (nm nc t month c : Z) (v : Q) :
  has_shape arr nm nc nc = true ->
  has_shape arr' nm nc nc = true ->
  target_is env t -> 0 <= t < nc ->
  0 <= month < nm -> 0 <= c < nc ->
  (forall p a b, month <= p < nm -> rate arr p a b = rate arr' p a b) ->
  max_return env month c v arr nm nc = max_return env month c v arr' nm nc.
Proof.
  intros Hs Hs' Ht Htr Hm Hc Hr.
  rewrite (max_return_search env arr nm nc t) by (auto; lia).
  rewrite (max_return_search env arr' nm nc t) by (auto; lia).
  f_equal. apply search_ext. intros q a b Hq. apply Hr. lia.
Qed.

Lemma max_return_reads_from_month_witness :
  max_return default_env 1 1 1 two_period_tensor 2 2
  = max_return default_env 1 1 1 [[[9; 9]; [9; 9]]; [[1; 1]; [3; 1]]]%Q 2 2.
Proof.
  apply (max_return_reads_from_month default_env _ _ 2 2 0);
    try reflexivity; try lia.
  intros p a b Hp. assert (p = 1) as -> by lia. reflexivity.
Defined.

(** ** [calculate_max_return] *)

Lemma has_shape_shape1 (arr : ndarray) (d0 d1 d2 : Z) :
  has_shape arr d0 d1 d2 = true -> 1 <= d0 -> shape1 arr = Return d1.
Proof.
  intros Hs H0. pose proof (has_shape_len _ _ _ _ Hs) as Hl.
  destruct (has_shape_rows arr d0 d1 d2 0 0 Hs) as [H1 _]; [lia|].
  destruct arr as [|mat rest]; [unfold len in Hl; simpl in Hl; lia|].
  simpl in *. now rewrite H1.
Qed.

Lemma is_max_over_Qeq (P : list Z -> Prop) (f : list Z -> Q) (M M' : Q) :
  M == M' -> is_max_over P f M -> is_max_over P f M'.
Proof.
  intros E [(ds & Hds & Eds) Hub]. split.
  - exists ds. split; [exact Hds | now rewrite Eds].
  - intros ds' Hds'. rewrite <- E. now apply Hub.
Qed.

Lemma calculate_max_return_total (env : environ) (arr : ndarray) :
  calculate_max_return env arr <> OutOfFuel.
Proof.
  unfold calculate_max_return.
  destruct arr as [|mat rest]; simpl; [discriminate|].
  destruct (py_int (getenv env "FROM_CURRENCY" "0")) as [c| |] eqn:Ec; simpl;
    [ | discriminate | now apply py_int_fuel in Ec ].
  destruct (py_int (getenv env "START_MONTH" "0")) as [s| |] eqn:Es; simpl;
    [ | discriminate | now apply py_int_fuel in Es ].
  apply max_return_total.
Qed.

Lemma calculate_max_return_search (env : environ) (arr : ndarray)
    (nm nc t s c : Z) :
  has_shape arr nm nc nc = true ->
  target_is env t -> 0 <= t < nc ->
  py_int (getenv env "START_MONTH" "0") = Return s -> 0 <= s < nm ->
  py_int (getenv env "FROM_CURRENCY" "0") = Return c -> 0 <= c < nc ->
  calculate_max_return env arr
  = Return (search arr nc t (Z.to_nat (nm - 1 - s)) s c 1).
Proof.
  intros Hs Ht Htr Es Hsr Ec Hc. unfold calculate_max_return.
  rewrite (has_shape_shape1 arr nm nc nc Hs) by lia. simpl.
  rewrite Ec, Es. simpl. rewrite (has_shape_len _ _ _ _ Hs).
  apply (max_return_search env arr nm nc t); auto; lia.
Qed.

Lemma search_is_max (arr : ndarray) (nm nc t s c : Z) :
  nonneg arr = true -> 0 <= t < nc -> 0 <= s < nm ->
  is_max_over (legal_path nm nc t s) (path_product arr s c)
    (search arr nc t (Z.to_nat (nm - 1 - s)) s c 1).
Proof.
  intros Hn Htr Hsr. set (k := Z.to_nat (nm - 1 - s)).
  apply is_max_over_Qeq with (M := V arr nc t k s c).
  - rewrite (search_V arr nc t) by (auto; lra). ring.
  - destruct (V_is_max arr nc t Htr Hn k s c) as [(ds & Hds & E) Hub].
    split.
    + exists ds. split; [ | exact E ].
      apply (legal_path_legal nm nc t Htr s ds); [lia | exact Hds].
    + intros ds' Hds'. apply Hub.
      apply (legal_path_legal nm nc t Htr s ds'); [lia | exact Hds'].
Qed.

(** X8. If the value of FROM_CURRENCY or of START_MONTH is made of ASCII
    characters none of which is a digit, [calculate_max_return] fails with
    ValueError on every array with at least one month (an array of two or
    more dimensions, built from a rectangular nested list), whatever its
    content. *)
Theorem calculate_max_return_malformed_setting (env : environ) (arr : ndarray) :
  is_rectangular arr = true -> arr <> [] ->
  ascii_without_digit (getenv env "FROM_CURRENCY" "0") = true \/
  ascii_without_digit (getenv env "START_MONTH" "0") = true ->
  calculate_max_return env arr = Raise ValueError.
Proof.
  intros _ Ha H. unfold calculate_max_return.
  destruct arr as [|mat rest]; [congruence|]. simpl.
  destruct (py_int (getenv env "FROM_CURRENCY" "0")) as [c|e|] eqn:Ec; simpl.
  - destruct H as [H|H]; apply py_int_without_digit in H;
      [congruence | now rewrite H].
  - now rewrite (py_int_Raise _ _ Ec).
  - now apply py_int_fuel in Ec.
Qed.

Lemma calculate_max_return_malformed_setting_witness :
  calculate_max_return [("START_MONTH", "January")]%string boundary_tensor
  = Raise ValueError.
Proof.
  apply calculate_max_return_malformed_setting;
    [reflexivity | discriminate | right; reflexivity].
Defined.

(** X9. A START_MONTH at or past the number of months of the array makes
    [calculate_max_return] fail with IndexError, whenever the array has at
    least one currency. *)
Theorem calculate_max_return_start_past_end (env : environ)
    (mat : list (list Q)) (rest : ndarray) (s c : Z) :
  1 <= len mat ->
  py_int (getenv env "FROM_CURRENCY" "0") = Return c ->
  py_int (getenv env "START_MONTH" "0") = Return s ->
  len (mat :: rest) <= s ->
  calculate_max_return env (mat :: rest) = Raise IndexError.
Proof.
  intros Hm Ec Es Hs. unfold calculate_max_return. simpl shape1. simpl bind.
  rewrite Ec, Es. simpl bind.
  apply max_return_fuel_above; [lia | exact Hm | apply max_return_total].
Qed.

Lemma calculate_max_return_start_past_end_witness :
  calculate_max_return [("START_MONTH", "2")]%string two_period_tensor
  = Raise IndexError.
Proof.
  apply (calculate_max_return_start_past_end _ _ _ 2 0);
    try reflexivity; unfold len; simpl; lia.
Defined.

(** ** [load_data] *)

Lemma has_shape_is_rectangular (data : ndarray) (d0 d1 d2 : Z) :
  has_shape data d0 d1 d2 = true -> 1 <= d0 -> 1 <= d1 ->
  is_rectangular data = true.
Proof.
  intros Hs H0 H1. unfold is_rectangular.
  pose proof (has_shape_len _ _ _ _ Hs) as Hl.
  destruct (has_shape_rows data d0 d1 d2 0 0 Hs) as [Hm Hr]; [lia|].
  specialize (Hr ltac:(simpl; lia)).
  destruct data as [|mat rest]; [unfold len in Hl; simpl in Hl; lia|].
  simpl in Hm, Hr. simpl hd.
  destruct mat as [|row mat']; [unfold len in Hm; simpl in Hm; lia|].
  simpl in Hr. simpl hd. now rewrite Hl, Hm, Hr.
Qed.

Lemma load_data_inr_Document (env : environ) (fs : file_system)
    (input_filename : string) (out : list line) (arr : ndarray) :
  load_data env fs input_filename = (out, inr arr) ->
  fs (getenv env "DATA_FOLDER" "./data/" ++ input_filename)%string
  = Document arr /\
  has_shape arr 12 4 4 = true /\ out = [].
Proof.
  unfold load_data.
  destruct (fs _) as [| |data] eqn:Ef; try discriminate.
  destruct (is_rectangular data); simpl; [ | discriminate ].
  destruct (has_shape data 12 4 4) eqn:Es; simpl; [ | discriminate ].
  intros [= <- <-]. auto.
Qed.

Lemma load_data_Document (env : environ) (fs : file_system)
    (input_filename : string) (arr : ndarray) :
  fs (getenv env "DATA_FOLDER" "./data/" ++ input_filename)%string
  = Document arr ->
  has_shape arr 12 4 4 = true ->
  load_data env fs input_filename = ([], inr arr).
Proof.
  intros Hf Hs. unfold load_data. rewrite Hf.
  rewrite (has_shape_is_rectangular arr 12 4 4 Hs) by lia.
  now rewrite Hs.
Qed.

(** X10. [load_data] returns an array exactly when the file at
    DATA_FOLDER + input_filename (DATA_FOLDER defaulting to "./data/")
    holds a tensor of shape (12, 4, 4); it then returns that tensor and
    prints nothing. *)
Theorem load_data_returns_iff (env : environ) (fs : file_system)
    (input_filename : string) (out : list line) (arr : ndarray) :
  load_data env fs input_filename = (out, inr arr) <->
  fs (getenv env "DATA_FOLDER" "./data/" ++ input_filename)%string
  = Document arr /\
  has_shape arr 12 4 4 = true /\ out = [].
Proof.
  split.
  - apply load_data_inr_Document.
  - intros (Hf & Hs & ->). now apply load_data_Document.
Qed.

(** ** [main] *)

Lemma main_total (env : environ) (fs : file_system) (input_args : list string) :
  main env fs input_args <> None.
Proof.
  unfold main. destruct input_args as [|name rest]; [discriminate|].
  destruct (load_data env fs name) as [out [e|arr]]; [discriminate|].
  pose proof (calculate_max_return_total env arr) as H.
  destruct (calculate_max_return env arr); [discriminate | discriminate | congruence].
Qed.

Lemma load_data_no_report (env : environ) (fs : file_system)
    (input_filename : string) (p : Q) :
  ~ In (MaximumReturn p) (fst (load_data env fs input_filename)).
Proof.
  unfold load_data. destruct (fs _) as [| |data]; simpl.
  - intros [H|[]]; discriminate.
  - intros [H|[]]; discriminate.
  - destruct (is_rectangular data); simpl; [ | intros [H|[]]; discriminate ].
    destruct (has_shape data 12 4 4); simpl; [intros [] | ].
    intros [H|[H|[]]]; discriminate.
Qed.

(** X11. Every run of [main] either returns after printing exactly one
    line, the maximum return, or exits with status 1 without printing a
    maximum return; no exception of the loader or of the optimizer
    escapes, and no other exit status occurs. *)
Theorem main_returns_or_exits_1 (env : environ) (fs : file_system)
    (input_args : list string) :
  exists r, main env fs input_args = Some r /\
    ((ended r = Returned /\ exists p, printed r = [MaximumReturn p]) \/
     (ended r = SystemExit 1 /\ forall p, ~ In (MaximumReturn p) (printed r))).
Proof.
  unfold main. destruct input_args as [|name rest].
  - eexists. split; [reflexivity|]. right. split; [reflexivity|].
    intros p [H|[H|[]]]; discriminate.
  - pose proof (load_data_no_report env fs name) as Hout.
    pose proof (load_data_inr_Document env fs name) as Hiff.
    destruct (load_data env fs name) as [out [e|arr]]; simpl in Hout.
    + eexists. split; [reflexivity|]. right. split; [reflexivity|].
      intros p Hin. simpl in Hin. apply in_app_or in Hin.
      destruct Hin as [Hin|[H|[]]]; [now apply (Hout p) | discriminate].
    + destruct (Hiff out arr eq_refl) as (_ & _ & ->).
      pose proof (calculate_max_return_total env arr) as Ht.
      destruct (calculate_max_return env arr) as [x|e|]; [ | | congruence ].
      * eexists. split; [reflexivity|]. left. split; [reflexivity|].
        eexists. reflexivity.
      * eexists. split; [reflexivity|]. right. split; [reflexivity|].
        intros p [H|[]]. discriminate.
Qed.

(** With no command-line argument [main] exits with status 1 after
    printing the request for a file name and the usage line, and records
    nothing in the log, whatever the environment and the file system. *)
Example main_without_arguments (env : environ) (fs : file_system) :
  main env fs [] = Some {| printed := [ProvideFileName; Usage];
                           logged := [];
                           ended := SystemExit 1 |}.
Proof. reflexivity. Qed.

(** Rounding never goes below the integer part. *)
Lemma round_half_even_floor (q : Q) : Qfloor q <= round_half_even q.
Proof.
  unfold round_half_even.
  destruct (q - inject_Z (Qfloor q) ?= 1 # 2)%Q; [ | lia | lia ].
  destruct (Z.even (Qfloor q)); lia.
Qed.

Lemma py_round2_lower (z : Z) (x : Q) :
  (inject_Z z <= x * 100 -> inject_Z z / 100 <= py_round2 x)%Q.
Proof.
  intros H. unfold py_round2.
  assert (Hz : z <= round_half_even (x * 100)).
  { apply Z.le_trans with (Qfloor (x * 100)); [ | apply round_half_even_floor ].
    rewrite <- (Qfloor_Z z). now apply Qfloor_resp_le. }
  rewrite Zle_Qle in Hz.
  apply Qmult_le_compat_r; [exact Hz | discriminate].
Qed.

(** X13. For a file whose tensor has no negative entry, the maximum return
    that [main] prints is never below -100 (percent), whatever the
    settings of the environment. *)
Theorem main_report_at_least_minus_100 (env : environ) (fs : file_system)
    (input_filename : string) (more : list string) (arr : ndarray)
    (r : run) (p : Q) :
  fs (getenv env "DATA_FOLDER" "./data/" ++ input_filename)%string
  = Document arr ->
  nonneg arr = true ->
  main env fs (input_filename :: more) = Some r ->
  In (MaximumReturn p) (printed r) ->
  (-100 <= p)%Q.
Proof.
  intros Hf Hn. unfold main.
  pose proof (load_data_no_report env fs input_filename) as Hout.
  pose proof (load_data_inr_Document env fs input_filename) as Hiff.
  destruct (load_data env fs input_filename) as [out [e|arr']]; simpl in Hout.
  - intros [= <-]. simpl. intros Hin. apply in_app_or in Hin.
    destruct Hin as [Hin|[H|[]]]; [now apply Hout in Hin | discriminate].
  - destruct (Hiff out arr' eq_refl) as (Hf' & _ & ->).
    assert (arr' = arr) as -> by congruence.
    destruct (calculate_max_return env arr) as [x|e|] eqn:Ex; [ | | discriminate ].
    + intros [= <-]. simpl. intros [[= <-]|[]].
      assert (Hx : (0 <= x)%Q).
      { unfold calculate_max_return in Ex.
        destruct (shape1 arr) as [nc| |]; simpl in Ex; try discriminate.
        destruct (py_int (getenv env "FROM_CURRENCY" "0")) as [c| |];
          simpl in Ex; try discriminate.
        destruct (py_int (getenv env "START_MONTH" "0")) as [s| |];
          simpl in Ex; try discriminate.
        apply (max_return_fuel_Return_nonneg _ _ _ _ _ _ _ _ _ Hn) in Ex;
          [exact Ex | discriminate]. }
      apply Qle_trans with (inject_Z (-10000) / 100)%Q; [discriminate|].
      apply py_round2_lower. unfold inject_Z. lra.
    + intros [= <-]. simpl. intros [H|[]]. discriminate.
Qed.

Lemma main_report_at_least_minus_100_witness :
  main [("START_MONTH", "10")]%string year_fs ["currency_data.txt"%string]
  = Some {| printed := [MaximumReturn (10000 # 100)];
            logged :=
              [Info "Loading data from file: currency_data.txt";
               Info "Data loaded successfully";
               Info "Calculating the maximum return over the year ...";
               InfoMaximumReturn (10000 # 100)];
            ended := Returned |} /\
  (-100 <= 10000 # 100)%Q.
Proof.
  assert (E : main [("START_MONTH", "10")]%string year_fs
                ["currency_data.txt"%string]
              = Some {| printed := [MaximumReturn (10000 # 100)];
                        logged :=
                          [Info "Loading data from file: currency_data.txt";
                           Info "Data loaded successfully";
                           Info "Calculating the maximum return over the year ...";
                           InfoMaximumReturn (10000 # 100)];
                        ended := Returned |}) by (vm_compute; reflexivity).
  split; [exact E|].
  apply (main_report_at_least_minus_100 [("START_MONTH", "10")]%string year_fs
           "currency_data.txt" [] year_tensor _ (10000 # 100)%Q eq_refl eq_refl E).
  simpl. now left.
Defined.

(** X14. The loader's shape check is all the optimizer needs: when the
    file holds a tensor of shape (12, 4, 4) whose entries fit 64-bit
    integers in magnitude and the three settings are in range, [main]
    returns normally, whatever the sign of the entries: it prints one
    maximum-return line and sends to the logger the three progress records
    and the same figure, in this order. *)
Theorem main_succeeds_on_loaded_file (env : environ) (fs : file_system)
    (input_filename : string) (more : list string) (arr : ndarray)
    (t s c : Z) :
  fs (getenv env "DATA_FOLDER" "./data/" ++ input_filename)%string
  = Document arr ->
  has_shape arr 12 4 4 = true ->
  within_int64 arr = true ->
  target_is env t -> 0 <= t < 4 ->
  py_int (getenv env "START_MONTH" "0") = Return s -> 0 <= s < 12 ->
  py_int (getenv env "FROM_CURRENCY" "0") = Return c -> 0 <= c < 4 ->
  exists p,
    main env fs (input_filename :: more)
    = Some {| printed := [MaximumReturn p];
              logged :=
                [Info ("Loading data from file: " ++ input_filename);
                 Info "Data loaded successfully";
                 Info "Calculating the maximum return over the year ...";
                 InfoMaximumReturn p];
              ended := Returned |}.
Proof.
  intros Hf Hs _ Ht Htr Es Hsr Ec Hc. unfold main.
  rewrite (load_data_Document env fs input_filename arr) by auto.
  rewrite (calculate_max_return_search env arr 12 4 t s c) by auto.
  eexists. reflexivity.
Qed.

Lemma main_succeeds_on_loaded_file_witness :
  exists p,
    main [("DATA_FOLDER", "./data/")]%string year_fs
      ["currency_data.txt"; "ignored"]%string
    = Some {| printed := [MaximumReturn p];
              logged :=
                [Info ("Loading data from file: " ++ "currency_data.txt");
                 Info "Data loaded successfully";
                 Info "Calculating the maximum return over the year ...";
                 InfoMaximumReturn p];
              ended := Returned |}.
Proof.
  apply (main_succeeds_on_loaded_file _ year_fs "currency_data.txt" _
           year_tensor 0 0 0); try reflexivity; lia.
Defined.

(** * The code over an arithmetic *)

(** ** Comparison of binary64 numbers *)







(** ** Well-shaped arrays *)

Section NumShape.
Variable A : arith.







End NumShape.

(** ** The search returns the greatest value carried along a legal path

    For an arithmetic whose [>] is a strict order on its numbers, where
    [is_num] tells the numbers from what compares with nothing (NaN). *)

Section NumOrder.
Variable A : arith.
Variable is_num : num A -> bool.
Hypothesis greater_irrefl : forall a, greater A a a = false.
Hypothesis greater_trans : forall a b c,
  greater A a b = true -> greater A b c = true -> greater A a c = true.
Hypothesis greater_num : forall a b, greater A a b = true -> is_num a = true.
Hypothesis zero_num : is_num (num_0 A) = true.
Hypothesis greater_cotrans : forall p x y,
  greater A p x = true -> is_num y = true ->
  greater A p y = true \/ greater A y x = true.

Section Fold.
Variable f : Z -> num A.




End Fold.

Variables (arr : Num.ndarray A) (nc t : Z).




End NumOrder.

(** ** The two arithmetics *)























